(** * Quantum machine learning notebooks: the repository's helper functions

    A shallow embedding of the Python code of three notebooks:

    - [qiskit_version/07_Variational_Circuits.ipynb] (QAOA): [pauli_x],
      [pauli_z], [product_pauli_z], the Hamiltonians [Hm] and [Hc], [evolve],
      [create_circuit] and [evaluate_circuit];
    - [coding_assignments/08_Sampling_a_Thermal_State] (checkpoint):
      [prepare_init_circuit], the amplitudes of its circuit, the density
      matrix [dm] and its partial trace;
    - [qiskit_version/05_Gate-Model_Quantum_Computing] (checkpoint): the Bell
      circuit and its measurement statistics.

    The notebooks are glue around a quantum-computing framework.  Python
    values are modelled as data (lists for arrays, records for framework
    objects), Python exceptions and calls into the framework as a small free
    monad [Py.prog], and floating-point numbers as real numbers. *)

From Stdlib Require Import List ZArith Lia Bool Ascii String Reals Lra.
Import ListNotations.

(* ================================================================== *)
(** * Python: exceptions, framework calls, sequences                   *)
(* ================================================================== *)

Module Py.

(** The exceptions the modelled code can raise. *)
Inductive exn : Type :=
| IndexError
| TypeError
| OverflowError
| QiskitError
| CircuitError.

(** The outcome of running a piece of Python code. *)
Inductive result (A : Type) : Type :=
| Ok (a : A)
| Err (e : exn).
Arguments Ok {A} a.
Arguments Err {A} e.

Section Prog.
Context {E : Type -> Type}.

(** A Python computation: it returns, raises, or calls into the framework
    (event [c], answered by a value of type [X]) and continues. *)
Inductive prog (A : Type) : Type :=
| Ret (a : A)
| Raise (e : exn)
| Call {X : Type} (c : E X) (k : X -> prog A).
Arguments Ret {A} a.
Arguments Raise {A} e.
Arguments Call {A X} c k.

Fixpoint bind {A B} (m : prog A) (f : A -> prog B) : prog B :=
  match m with
  | Ret a => f a
  | Raise e => Raise e
  | Call c k => Call c (fun x => bind (k x) f)
  end.

(** A single framework call. *)
Definition call {X} (c : E X) : prog X := Call c Ret.

(** [[f(x) for x in l]]: the elements are computed left to right and the
    first exception aborts the comprehension. *)
Fixpoint comprehension {A B} (f : A -> prog B) (l : list A) : prog (list B) :=
  match l with
  | [] => Ret []
  | a :: l' => bind (f a) (fun b => bind (comprehension f l') (fun bs => Ret (b :: bs)))
  end.

(** [functools.reduce(f, l)] without an initial value: a left fold seeded
    with the first element; on an empty sequence it raises [TypeError]. *)
Definition reduce {A} (f : A -> A -> A) (l : list A) : prog A :=
  match l with
  | [] => Raise TypeError
  | a :: l' => Ret (fold_left f l' a)
  end.

(** [l[i]] on a list: a negative index counts from the end, an index
    outside [-len, len) raises [IndexError].  An array or a register answers
    in the same way every index that fits its index type (for the others see
    [Np.getitem] below). *)
Definition getitem {A} (l : list A) (i : Z) : prog A :=
  let n := Z.of_nat (List.length l) in
  let j := if (i <? 0)%Z then (i + n)%Z else i in
  if ((0 <=? j)%Z && (j <? n)%Z)%bool
  then match nth_error l (Z.to_nat j) with
       | Some a => Ret a
       | None => Raise IndexError
       end
  else Raise IndexError.

(** [for x in l: body]: the loop threads the objects the body mutates and
    stops at the first exception. *)
Fixpoint for_loop {A S} (l : list A) (body : A -> S -> prog S) (s : S) : prog S :=
  match l with
  | [] => Ret s
  | a :: l' => bind (body a s) (for_loop l' body)
  end.

(** A computation that makes no call into the framework: it is a value or
    an exception. *)
Definition pure {A} (m : prog A) : Prop :=
  match m with
  | Call _ _ => False
  | _ => True
  end.
End Prog.

Arguments prog E A : clear implicits.
Arguments Ret {E A} a.
Arguments Raise {E A} e.
Arguments Call {E A X} c k.

(** [range(n)]. *)
Definition range (n : nat) : list Z := map Z.of_nat (seq 0 n).

(** [itertools.product(l, repeat=2)]: all pairs, the last component varying
    fastest. *)
Definition product2 {A} (l : list A) : list (A * A) :=
  flat_map (fun a => map (fun b => (a, b)) l) l.

(** [l[:n]] and [l[n:]] for [n >= 0]. *)
Definition slice_to {A} (l : list A) (n : nat) : list A := firstn n l.
Definition slice_from {A} (l : list A) (n : nat) : list A := skipn n l.

End Py.

Declare Scope py_scope.
Delimit Scope py_scope with py.
Notation "x <- m ;; k" := (Py.bind m (fun x => k))
  (at level 61, m at next level, right associativity) : py_scope.

Local Open Scope py_scope.

(* ================================================================== *)
(** * Complex numbers                                                  *)
(* ================================================================== *)

(** Python's [complex], with real numbers for the floating-point parts. *)
Definition C : Type := (R * R)%type.

Definition C0 : C := (0%R, 0%R).
Definition C1 : C := (1%R, 0%R).
Definition RtoC (r : R) : C := (r, 0%R).
Definition Cadd (a b : C) : C := ((fst a + fst b)%R, (snd a + snd b)%R).
Definition Cmul (a b : C) : C :=
  ((fst a * fst b - snd a * snd b)%R, (fst a * snd b + snd a * fst b)%R).
Definition Cconj (a : C) : C := (fst a, (- snd a)%R).
(** [abs(a)**2]. *)
Definition Cnorm2 (a : C) : R := (fst a * fst a + snd a * snd a)%R.
(** [abs(a)]. *)
Definition Cabs (a : C) : R := sqrt (Cnorm2 a).
Definition Csub (a b : C) : C := ((fst a - fst b)%R, (snd a - snd b)%R).
(** [np.real]. *)
Definition np_real (a : C) : R := fst a.

(* ================================================================== *)
(** * numpy arrays                                                     *)
(* ================================================================== *)

Module Np.

(** Arrays are lists; the entries [0.0] and [1.0] of [np.zeros] and [np.eye]
    are written as the integers 0 and 1. *)

(** [np.zeros(n)]. *)
Definition zeros (n : nat) : list Z := repeat 0%Z n.

(** Row [i] of the identity matrix: a one in column [i], zeros elsewhere. *)
Definition eye_row (n i : nat) : list Z :=
  map (fun j => if Nat.eqb i j then 1%Z else 0%Z) (seq 0 n).

(** [np.eye(n)]. *)
Definition eye (n : nat) : list (list Z) := map (eye_row n) (seq 0 n).

(** [a.astype(bool)]: an entry is true when it is not zero. *)
Definition astype_bool (a : list Z) : list bool := map (fun v => negb (Z.eqb v 0)) a.

(** [np.logical_xor(a, b)] on boolean arrays of one length. *)
Definition logical_xor (a b : list bool) : list bool :=
  map (fun ab => xorb (fst ab) (snd ab)) (combine a b).

(** An index into an array is converted to the machine's index type, a
    signed integer of 64 bits: the integers from [-2^63] to [2^63 - 1]. *)
Definition fits_index (i : Z) : bool :=
  ((-9223372036854775808 <=? i)%Z && (i <? 9223372036854775808)%Z)%bool.

(** [a[i]] on an array with an integer [i]: inside [[-len, len)] it is the
    entry a list would give; outside, an index that fits the index type
    raises [IndexError] and one that does not raises [OverflowError].  (An
    array has fewer than [2^63] entries, so an index that does not fit is
    never inside it; the test of the bounds is written first.) *)
Definition getitem {E : Type -> Type} {A} (a : list A) (i : Z) : Py.prog E A :=
  let n := Z.of_nat (List.length a) in
  if ((- n <=? i)%Z && (i <? n)%Z)%bool then Py.getitem a i
  else if fits_index i then Py.Raise Py.IndexError
  else Py.Raise Py.OverflowError.

(** [-v] on an entry of an integer array ([int64]): the negation wraps
    around, so that [-(-2^63)] is [-2^63] again. *)
Definition negative (v : Z) : Z :=
  ((- v + 9223372036854775808) mod 18446744073709551616 - 9223372036854775808)%Z.

End Np.

(** Python numbers, as far as the framework looks at a weight: whether it
    is zero ([w == 0.0]). *)
Class Number (K : Type) : Type := { is_zero : K -> bool }.

(** Integers, Python's own and numpy's. *)
#[global] Instance Number_Z : Number Z := {| is_zero := fun v => Z.eqb v 0 |}.

(* ================================================================== *)
(** * The framework's objects                                          *)
(* ================================================================== *)

Module Qiskit.
Import Py.

(** ** Pauli operators and weighted sums of them *)

(** [Pauli(z, x)]: two boolean arrays of one length; qubit [i] carries
    sigma-Z when [z[i]] is set and sigma-X when [x[i]] is set. *)
Record Pauli : Type := mkPauli { Pauli_z : list bool; Pauli_x : list bool }.

Inductive sigma : Type := SigmaI | SigmaX | SigmaY | SigmaZ.

(** The single-qubit factor of a Pauli operator at qubit [i]. *)
Definition sigma_at (P : Pauli) (i : nat) : sigma :=
  match nth i (Pauli_z P) false, nth i (Pauli_x P) false with
  | false, false => SigmaI
  | false, true => SigmaX
  | true, true => SigmaY
  | true, false => SigmaZ
  end.

(** The label under which the framework prints a Pauli operator: one letter
    per qubit, the highest qubit first. *)
Definition sigma_letter (s : sigma) : ascii :=
  match s with
  | SigmaI => "I"%char
  | SigmaX => "X"%char
  | SigmaY => "Y"%char
  | SigmaZ => "Z"%char
  end.
Definition to_label (P : Pauli) : string :=
  fold_left (fun label i => String (sigma_letter (sigma_at P i)) label)
            (seq 0 (List.length (Pauli_z P))) EmptyString.

(** The identity on [n] qubits. *)
Definition Pauli_identity (n : nat) : Pauli := mkPauli (repeat false n) (repeat false n).

(** The standard basis vector [e_q] of dimension [n], as a boolean array. *)
Definition basis_vector (n q : nat) : list bool := map (fun j => Nat.eqb q j) (seq 0 n).

(** A [WeightedPauliOperator]: the list of its [[weight, Pauli]] terms. *)
Record WeightedPauliOperator (K : Type) : Type :=
  mkWeightedPauliOperator { paulis : list (K * Pauli) }.
Arguments mkWeightedPauliOperator {K} paulis.
Arguments paulis {K} w.

(** [WeightedPauliOperator([[weight, pauli]])], the constructor on a list of
    one term, which is all the notebook passes to it: the constructor
    simplifies the list it is given and drops every term whose weight is
    zero, so the operator holds the term when [weight] is not zero and no
    term at all when it is.  (The weight is kept as a complex number of the
    same value: the notebook prints [-1] as [(-1+0j)].) *)
Definition WeightedPauliOperator_init {K} {N : Number K} (weight : K) (pauli : Pauli)
  : WeightedPauliOperator K :=
  mkWeightedPauliOperator (if is_zero weight then [] else [(weight, pauli)]).

(** ** Registers, instructions, circuits *)

(** A register is known by its size and its instance number: a register
    created without a name is called [q<number>] (or [c<number>]), which is
    how the notebooks' drawings show it ([q2_0], [q16_0], [c0_1]). *)
Record QuantumRegister : Type := mkQuantumRegister { qreg_number : nat; qreg_size : nat }.
Record ClassicalRegister : Type := mkClassicalRegister { creg_number : nat; creg_size : nat }.

Definition Qubit : Type := (QuantumRegister * nat)%type.
Definition Clbit : Type := (ClassicalRegister * nat)%type.

Inductive Gate : Type :=
| RXGate (theta : R)
| CXGate
| HGate
| Measure
| OtherGate (name : string) (params : list R).

Record Instruction : Type :=
  mkInstruction { operation : Gate; qargs : list Qubit; cargs : list Clbit }.

Record QuantumCircuit : Type :=
  mkQuantumCircuit {
    qregs : list QuantumRegister;
    cregs : list ClassicalRegister;
    data : list Instruction }.

Inductive Backend : Type := statevector_simulator | qasm_simulator.

(** [QuantumCircuit(q, c)]: an empty circuit over the given registers. *)
Definition QuantumCircuit_init (qs : list QuantumRegister) (cs : list ClassicalRegister)
  : QuantumCircuit := mkQuantumCircuit qs cs [].

(** Appending one instruction: the circuit object is mutated in place, here
    the updated circuit is returned. *)
Definition append (c : QuantumCircuit) (i : Instruction) : QuantumCircuit :=
  mkQuantumCircuit (qregs c) (cregs c) (data c ++ [i]).

(** [circuit.rx(theta, q)], [circuit.cx(ctl, tgt)], [circuit.h(q)]. *)
Definition rx (theta : R) (q : Qubit) (c : QuantumCircuit) : QuantumCircuit :=
  append c (mkInstruction (RXGate theta) [q] []).
Definition cx (ctl tgt : Qubit) (c : QuantumCircuit) : QuantumCircuit :=
  append c (mkInstruction CXGate [ctl; tgt] []).
Definition h (q : Qubit) (c : QuantumCircuit) : QuantumCircuit :=
  append c (mkInstruction HGate [q] []).

(** All the bits of a register, in index order. *)
Definition qubits_of (r : QuantumRegister) : list Qubit :=
  map (fun k => (r, k)) (seq 0 (qreg_size r)).
Definition clbits_of (r : ClassicalRegister) : list Clbit :=
  map (fun k => (r, k)) (seq 0 (creg_size r)).

(** [circuit.measure(q, c)] on two registers: qubit [i] is measured into
    classical bit [i]; registers of different sizes are refused. *)
Definition measure_registers {E} (q : QuantumRegister) (cr : ClassicalRegister)
    (c : QuantumCircuit) : prog E QuantumCircuit :=
  if Nat.eqb (qreg_size q) (creg_size cr)
  then Ret (fold_left
              (fun acc qc => append acc (mkInstruction Measure [fst qc] [snd qc]))
              (combine (qubits_of q) (clbits_of cr)) c)
  else Raise QiskitError.

Section Constructors.
Context {E : Type -> Type}.

(** [Pauli(z, x)]: the arrays are converted to booleans; arrays of different
    lengths are refused. *)
Definition Pauli_init (z x : list Z) : prog E Pauli :=
  if Nat.eqb (List.length z) (List.length x)
  then Ret (mkPauli (Np.astype_bool z) (Np.astype_bool x))
  else Raise QiskitError.

(** [a * b] on Pauli operators: the componentwise exclusive or of the two
    [z] arrays and of the two [x] arrays. *)
Definition Pauli_mul (a b : Pauli) : prog E Pauli :=
  if Nat.eqb (List.length (Pauli_z a)) (List.length (Pauli_z b))
  then Ret (mkPauli (Np.logical_xor (Pauli_z a) (Pauli_z b))
                    (Np.logical_xor (Pauli_x a) (Pauli_x b)))
  else Raise QiskitError.

(** [qr[i]]. *)
Definition qreg_getitem (r : QuantumRegister) (i : Z) : prog E Qubit :=
  getitem (qubits_of r) i.

End Constructors.

(** ** Calls into the framework *)

(** The calls whose work is done inside the framework: creating registers
    (which draws on the framework's instance counters) and the three
    algorithms the QAOA notebook delegates. *)
Inductive libcall (K : Type) : Type -> Type :=
| NewQuantumRegister (size : nat) : libcall K QuantumRegister
| NewClassicalRegister (size : nat) : libcall K ClassicalRegister
| OperatorEvolve (op : WeightedPauliOperator K) (state_in : option QuantumCircuit)
    (evo_time : R) (num_time_slices : Z) (quantum_registers : QuantumRegister)
    (expansion_mode : string) (expansion_order : Z) : libcall K QuantumCircuit
| ExecuteStatevector (circuit : QuantumCircuit) (backend : Backend) : libcall K (list C)
| EvaluateWithStatevector (op : WeightedPauliOperator K) (quantum_state : list C)
    : libcall K (C * C).
Arguments NewQuantumRegister {K} size.
Arguments NewClassicalRegister {K} size.
Arguments OperatorEvolve {K} op state_in evo_time num_time_slices quantum_registers
  expansion_mode expansion_order.
Arguments ExecuteStatevector {K} circuit backend.
Arguments EvaluateWithStatevector {K} op quantum_state.

(** A framework call with its answer type hidden, for call logs. *)
Inductive anycall (K : Type) : Type :=
| AnyCall {X : Type} (c : libcall K X).
Arguments AnyCall {K X} c.

(** What the notebooks take from the framework without looking inside:
    [+] on operators and on circuits, and the answers to the delegated
    calls. *)
Class Framework (K : Type) : Type := {
  operator_add : WeightedPauliOperator K -> WeightedPauliOperator K -> WeightedPauliOperator K;
  circuit_add : QuantumCircuit -> QuantumCircuit -> QuantumCircuit;
  operator_evolve :
    WeightedPauliOperator K -> option QuantumCircuit -> R -> Z -> QuantumRegister ->
    string -> Z -> QuantumCircuit;
  execute_statevector : QuantumCircuit -> Backend -> list C;
  evaluate_with_statevector : WeightedPauliOperator K -> list C -> C * C
}.

(** The framework's hidden state: the instance counters that name new
    registers. *)
Record lib_state : Type := mkLibState { qreg_counter : nat; creg_counter : nat }.

(** The state after [k] more quantum registers have been created without a
    name. *)
Definition registers_created (k : nat) (s : lib_state) : lib_state :=
  mkLibState (qreg_counter s + k) (creg_counter s).

Section Running.
Context {K : Type} {F : Framework K}.

(** How the framework answers a call, and what it does to its state.
    A register of no qubit (or bit) is refused with [CircuitError]; a
    register created without a name takes the next number of its counter.
    The operator's [evolve] builds its circuit on a quantum register of its
    own, created without a name, so every call of it takes a number of the
    quantum register counter as well. *)
Definition handle {X} (c : libcall K X) (s : lib_state) : result X * lib_state :=
  match c in libcall _ X return result X * lib_state with
  | NewQuantumRegister size =>
      if Nat.eqb size 0 then (Err CircuitError, s)
      else (Ok (mkQuantumRegister (qreg_counter s) size),
            mkLibState (S (qreg_counter s)) (creg_counter s))
  | NewClassicalRegister size =>
      if Nat.eqb size 0 then (Err CircuitError, s)
      else (Ok (mkClassicalRegister (creg_counter s) size),
            mkLibState (qreg_counter s) (S (creg_counter s)))
  | OperatorEvolve op st t n r mode order =>
      (Ok (operator_evolve op st t n r mode order),
       mkLibState (S (qreg_counter s)) (creg_counter s))
  | ExecuteStatevector circ b => (Ok (execute_statevector circ b), s)
  | EvaluateWithStatevector op sv => (Ok (evaluate_with_statevector op sv), s)
  end.

(** Running a computation from a framework state: its outcome and the state
    it leaves; an exception raised inside a call ends the computation. *)
Fixpoint run {A} (m : prog (libcall K) A) (s : lib_state) : result A * lib_state :=
  match m with
  | Ret a => (Ok a, s)
  | Raise e => (Err e, s)
  | Call c k =>
      match handle c s with
      | (Ok x, s') => run (k x) s'
      | (Err e, s') => (Err e, s')
      end
  end.

(** The framework calls a computation makes, in order. *)
Fixpoint calls {A} (m : prog (libcall K) A) (s : lib_state) : list (anycall K) :=
  match m with
  | Ret _ => []
  | Raise _ => []
  | Call c k =>
      AnyCall c :: match handle c s with
                   | (Ok x, s') => calls (k x) s'
                   | (Err _, _) => []
                   end
  end.

End Running.

End Qiskit.

(* ================================================================== *)
(** * The framework's simulators                                       *)
(* ================================================================== *)

Module Simulator.
Import Qiskit.

(** State vectors are lists of [2^n] amplitudes; bit [k] of an index is the
    state of qubit [k]. *)

Definition set_bit (i k : nat) (b : bool) : nat :=
  if b then Nat.setbit i k else Nat.clearbit i k.

(** A single-qubit gate with matrix [U] (row, column) on qubit [k]. *)
Definition apply_gate1 (U : bool -> bool -> C) (k : nat) (psi : list C) : list C :=
  map (fun i =>
         Cadd (Cmul (U (Nat.testbit i k) false) (nth (set_bit i k false) psi C0))
              (Cmul (U (Nat.testbit i k) true) (nth (set_bit i k true) psi C0)))
      (seq 0 (List.length psi)).

(** CNOT: the target is flipped where the control is set. *)
Definition apply_cx (ctl tgt : nat) (psi : list C) : list C :=
  map (fun i =>
         nth (if Nat.testbit i ctl then set_bit i tgt (negb (Nat.testbit i tgt)) else i)
             psi C0)
      (seq 0 (List.length psi)).

(** The gate matrices, as the gate-model notebook tabulates them. *)
Definition rx_matrix (theta : R) (r c : bool) : C :=
  if Bool.eqb r c then (cos (theta / 2), 0%R) else (0%R, (- sin (theta / 2))%R).
Definition h_matrix (r c : bool) : C :=
  if (r && c)%bool then ((- (1 / sqrt 2))%R, 0%R) else ((1 / sqrt 2)%R, 0%R).

Definition qreg_eqb (a b : QuantumRegister) : bool :=
  (Nat.eqb (qreg_number a) (qreg_number b) && Nat.eqb (qreg_size a) (qreg_size b))%bool.
Definition creg_eqb (a b : ClassicalRegister) : bool :=
  (Nat.eqb (creg_number a) (creg_number b) && Nat.eqb (creg_size a) (creg_size b))%bool.

(** The position of a qubit among all qubits of a circuit: registers are
    laid out in the order the circuit holds them. *)
Fixpoint qubit_position (regs : list QuantumRegister) (q : Qubit) : option nat :=
  match regs with
  | [] => None
  | r :: rest =>
      if qreg_eqb r (fst q)
      then (if Nat.ltb (snd q) (qreg_size r) then Some (snd q) else None)
      else option_map (Nat.add (qreg_size r)) (qubit_position rest q)
  end.
Fixpoint clbit_position (regs : list ClassicalRegister) (b : Clbit) : option nat :=
  match regs with
  | [] => None
  | r :: rest =>
      if creg_eqb r (fst b)
      then (if Nat.ltb (snd b) (creg_size r) then Some (snd b) else None)
      else option_map (Nat.add (creg_size r)) (clbit_position rest b)
  end.

Definition num_qubits (c : QuantumCircuit) : nat :=
  fold_right (fun r n => qreg_size r + n) 0 (qregs c).
Definition num_clbits (c : QuantumCircuit) : nat :=
  fold_right (fun r n => creg_size r + n) 0 (cregs c).

(** The all-zeros state on [n] qubits. *)
Definition zero_state (n : nat) : list C := C1 :: repeat C0 (2 ^ n - 1).

(** One instruction on a state vector; a measurement leaves the vector to
    the sampling below, an instruction outside the gate table is not
    simulated. *)
Definition apply_instruction (regs : list QuantumRegister) (i : Instruction)
    (psi : list C) : option (list C) :=
  match operation i, qargs i with
  | RXGate theta, [q] =>
      option_map (fun k => apply_gate1 (rx_matrix theta) k psi) (qubit_position regs q)
  | HGate, [q] =>
      option_map (fun k => apply_gate1 h_matrix k psi) (qubit_position regs q)
  | CXGate, [qc; qt] =>
      match qubit_position regs qc, qubit_position regs qt with
      | Some kc, Some kt => Some (apply_cx kc kt psi)
      | _, _ => None
      end
  | Measure, [_] => Some psi
  | _, _ => None
  end.

(** The state vector a circuit prepares from the all-zeros state. *)
Definition statevector (c : QuantumCircuit) : option (list C) :=
  fold_left
    (fun st i => match st with Some psi => apply_instruction (qregs c) i psi | None => None end)
    (data c) (Some (zero_state (num_qubits c))).

(** [to_density_matrix]: the projector onto the state, entry [(i, j)] being
    [psi[i] * conj(psi[j])]. *)
Definition to_density_matrix (psi : list C) : list (list C) :=
  map (fun a => map (fun b => Cmul a (Cconj b)) psi) psi.

Definition entry (m : list (list C)) (i j : nat) : C := nth j (nth i m []) C0.

(** The index obtained by inserting bit [b] at position [k] of index [a]. *)
Definition insert_bit (a k : nat) (b : bool) : nat :=
  a mod 2 ^ k + (if b then 2 ^ k else 0) + (a / 2 ^ k) * 2 ^ (S k).

(** Tracing out qubit [k] of a density matrix. *)
Definition trace_out (k : nat) (rho : list (list C)) : list (list C) :=
  let d := List.length rho / 2 in
  map (fun a =>
         map (fun b =>
                Cadd (entry rho (insert_bit a k false) (insert_bit b k false))
                     (entry rho (insert_bit a k true) (insert_bit b k true)))
             (seq 0 d))
      (seq 0 d).

(** [partial_trace(rho, qargs)]: the qubits listed (in increasing order) are
    traced out, the highest first so that the lower positions stay put. *)
Definition partial_trace (rho : list (list C)) (qargs : list nat) : list (list C) :=
  fold_right trace_out rho qargs.

(** The measurements of a circuit, as pairs (qubit position, classical bit
    position). *)
Definition measurements (c : QuantumCircuit) : list (nat * nat) :=
  flat_map
    (fun i =>
       match operation i, qargs i, cargs i with
       | Measure, [q], [b] =>
           match qubit_position (qregs c) q, clbit_position (cregs c) b with
           | Some k, Some m => [(k, m)]
           | _, _ => []
           end
       | _, _, _ => []
       end)
    (data c).

(** The classical register's value when basis state [i] is measured. *)
Definition classical_value (meas : list (nat * nat)) (i : nat) : nat :=
  fold_left (fun v km => set_bit v (snd km) (Nat.testbit i (fst km))) meas 0.

Definition Rsum (l : list R) : R := fold_right Rplus 0%R l.

(** The probability of each value of the classical register in one shot
    (Born's rule), for a circuit whose measurements come last. *)
Definition outcome_probabilities (c : QuantumCircuit) : option (list R) :=
  option_map
    (fun psi =>
       map (fun v =>
              Rsum (map (fun i =>
                           if Nat.eqb (classical_value (measurements c) i) v
                           then Cnorm2 (nth i psi C0) else 0%R)
                        (seq 0 (List.length psi))))
           (seq 0 (2 ^ num_clbits c)))
    (statevector c).

(** The key under which [get_counts] files the value [v] of an [m]-bit
    classical register: its bits, the highest first. *)
Fixpoint bitstring (m v : nat) : string :=
  match m with
  | 0 => EmptyString
  | S m' => String (if Nat.testbit v m' then "1"%char else "0"%char) (bitstring m' v)
  end.

(** Shots are independent: the probability that a run of [shots] shots
    records exactly the outcomes [memory], one per shot. *)
Definition memory_probability (probs : list R) (shots : nat) (memory : list nat) : R :=
  if Nat.eqb (List.length memory) shots
  then fold_right (fun v acc => (nth v probs 0 * acc)%R) 1%R memory
  else 0%R.

End Simulator.

(* ================================================================== *)
(** * Notebook 07: variational circuits (QAOA)                         *)
(* ================================================================== *)

Module VariationalCircuits.
Import Py Qiskit.

(** The module-level names of the notebook.  The functions below look them
    up when they are called; all of them are taken as bound at that time
    (the notebook binds [backend] in a later cell than the one that first
    calls [evaluate_circuit]). *)
Record globals (K : Type) : Type := mkGlobals {
  n_qubits : nat;
  J : list (list Z);
  p : nat;
  Hm : WeightedPauliOperator K;
  Hc : WeightedPauliOperator K;
  qr : QuantumRegister;
  circuit_init : QuantumCircuit;
  backend : Backend
}.
Arguments n_qubits {K} g.
Arguments J {K} g.
Arguments p {K} g.
Arguments Hm {K} g.
Arguments Hc {K} g.
Arguments qr {K} g.
Arguments circuit_init {K} g.
Arguments backend {K} g.

Section Functions.
Context {K : Type} {N : Number K} {F : Framework K}.
Variable g : globals K.

(** [[
def pauli_x(qubit, coeff):
    eye = np.eye((n_qubits))
    return WeightedPauliOperator([[coeff, Pauli(np.zeros(n_qubits), eye[qubit])]])
]] *)
Definition pauli_x (qubit : Z) (coeff : K) : prog (libcall K) (WeightedPauliOperator K) :=
  let eye := Np.eye (n_qubits g) in
  row <- Np.getitem eye qubit ;;
  P <- Pauli_init (Np.zeros (n_qubits g)) row ;;
  Ret (WeightedPauliOperator_init coeff P).

(** [[
def pauli_z(qubit, coeff):
    eye = np.eye((n_qubits))
    return WeightedPauliOperator([[coeff, Pauli(eye[qubit], np.zeros(n_qubits))]])
]] *)
Definition pauli_z (qubit : Z) (coeff : K) : prog (libcall K) (WeightedPauliOperator K) :=
  let eye := Np.eye (n_qubits g) in
  row <- Np.getitem eye qubit ;;
  P <- Pauli_init row (Np.zeros (n_qubits g)) ;;
  Ret (WeightedPauliOperator_init coeff P).

(** [[
def product_pauli_z(q1, q2, coeff):
    eye = np.eye((n_qubits))
    return WeightedPauliOperator([[coeff, Pauli(eye[q1], np.zeros(n_qubits))
                                          * Pauli(eye[q2], np.zeros(n_qubits))]])
]] *)
Definition product_pauli_z (q1 q2 : Z) (coeff : K)
  : prog (libcall K) (WeightedPauliOperator K) :=
  let eye := Np.eye (n_qubits g) in
  row1 <- Np.getitem eye q1 ;;
  P1 <- Pauli_init row1 (Np.zeros (n_qubits g)) ;;
  row2 <- Np.getitem eye q2 ;;
  P2 <- Pauli_init row2 (Np.zeros (n_qubits g)) ;;
  P <- Pauli_mul P1 P2 ;;
  Ret (WeightedPauliOperator_init coeff P).

(** [[
def evolve(hamiltonian, angle, quantum_registers):
    return hamiltonian.evolve(None, angle, 1,
                              quantum_registers=quantum_registers,
                              expansion_mode='suzuki',
                              expansion_order=3)
]] *)
Definition evolve (hamiltonian : WeightedPauliOperator K) (angle : R)
    (quantum_registers : QuantumRegister) : prog (libcall K) QuantumCircuit :=
  call (OperatorEvolve hamiltonian None angle 1 quantum_registers "suzuki" 3).

(** [[
def create_circuit(beta, gamma):
    circuit_evolv = reduce(lambda x,y: x+y,
                           [evolve(Hc, beta[i], qr) + evolve(Hm, gamma[i], qr)
                            for i in range(p)])
    circuit = circuit_init + circuit_evolv
    return circuit
]] *)
Definition create_circuit (beta gamma : list R) : prog (libcall K) QuantumCircuit :=
  (* [beta[i]] and [gamma[i]]: the index comes from [range(p)], so it is
     not negative and fits the index type. *)
  steps <- comprehension
             (fun i =>
                b <- getitem beta i ;;
                cost <- evolve (Hc g) b (qr g) ;;
                c <- getitem gamma i ;;
                mix <- evolve (Hm g) c (qr g) ;;
                Ret (circuit_add cost mix))
             (range (p g)) ;;
  circuit_evolv <- reduce circuit_add steps ;;
  Ret (circuit_add (circuit_init g) circuit_evolv).

(** [[
def evaluate_circuit(beta_gamma):
    n = len(beta_gamma)//2
    circuit = create_circuit(beta_gamma[:n], beta_gamma[n:])
    return np.real(Hc.evaluate_with_statevector(
        execute(circuit, backend).result().get_statevector())[0])
]] *)
Definition evaluate_circuit (beta_gamma : list R) : prog (libcall K) R :=
  let n := List.length beta_gamma / 2 in
  circuit <- create_circuit (slice_to beta_gamma n) (slice_from beta_gamma n) ;;
  psi <- call (ExecuteStatevector circuit (backend g)) ;;
  mean_std <- call (EvaluateWithStatevector (Hc g) psi) ;;
  Ret (np_real (fst mean_std)).

End Functions.

Section Cells.
Context {F : Framework Z}.
Variable g : globals Z.

(** [J[i, j]] on a two-dimensional array of integers, for indices that
    come from [range] (they fit the index type, so that an index outside the
    array raises [IndexError]). *)
Definition getitem2 (a : list (list Z)) (i j : Z) : prog (libcall Z) Z :=
  row <- getitem a i ;; getitem row j.

(** [[
Hm = reduce(lambda x,y: x+y, [pauli_x(i, -1) for i in range(n_qubits)])
]] *)
Definition Hm_terms : prog (libcall Z) (list (WeightedPauliOperator Z)) :=
  comprehension (fun i => pauli_x g i (-1)%Z) (range (n_qubits g)).
Definition Hm_cell : prog (libcall Z) (WeightedPauliOperator Z) :=
  terms <- Hm_terms ;; reduce operator_add terms.

(** [[
Hc = reduce(lambda x,y: x+y, [product_pauli_z(i,j, -J[i,j])
             for i,j in itertools.product(range(n_qubits), repeat=2)])
]] *)
Definition Hc_term (ij : Z * Z) : prog (libcall Z) (WeightedPauliOperator Z) :=
  c <- getitem2 (J g) (fst ij) (snd ij) ;;
  product_pauli_z g (fst ij) (snd ij) (Np.negative c).
Definition Hc_terms : prog (libcall Z) (list (WeightedPauliOperator Z)) :=
  comprehension Hc_term (product2 (range (n_qubits g))).
Definition Hc_cell : prog (libcall Z) (WeightedPauliOperator Z) :=
  terms <- Hc_terms ;; reduce operator_add terms.

End Cells.

(** The circuit the claim about [create_circuit] describes: starting from
    [circuit_init], for [i = 0 .. p-1] in turn, the evolution under [Hc] by
    [beta[i]] is appended and then the evolution under [Hm] by [gamma[i]]. *)
Definition appended_layers {K} {F : Framework K} (g : globals K)
    (layers : list (R * R)) : QuantumCircuit :=
  fold_left
    (fun acc bc =>
       circuit_add
         (circuit_add acc (operator_evolve (Hc g) None (fst bc) 1 (qr g) "suzuki" 3))
         (operator_evolve (Hm g) None (snd bc) 1 (qr g) "suzuki" 3))
    layers (circuit_init g).

(** What one element of the comprehension in [create_circuit] adds up: the
    two evolutions of a layer. *)
Definition layer_circuit {K} {F : Framework K} (g : globals K) (bc : R * R)
  : QuantumCircuit :=
  circuit_add (operator_evolve (Hc g) None (fst bc) 1 (qr g) "suzuki" 3)
              (operator_evolve (Hm g) None (snd bc) 1 (qr g) "suzuki" 3).

(** The layers summed the way [reduce] sums them, from the left starting
    with the first; there is no sum of no layers. *)
Definition summed_layers {K} {F : Framework K} (g : globals K)
    (layers : list (R * R)) : option QuantumCircuit :=
  match layers with
  | [] => None
  | first :: rest =>
      Some (fold_left circuit_add (map (layer_circuit g) rest) (layer_circuit g first))
  end.

(** The pairs [(beta[i], gamma[i])] for [i = 0 .. p-1]. *)
Definition layers_of (p : nat) (beta gamma : list R) : list (R * R) :=
  map (fun i => (nth i beta 0%R, nth i gamma 0%R)) (seq 0 p).

(** The notebook's array [J = np.array([[0,1],[0,0]])]. *)
Definition notebook_J : list (list Z) := [[0; 1]; [0; 0]]%Z.

End VariationalCircuits.

(* ================================================================== *)
(** * Notebook 08: sampling a thermal state                            *)
(* ================================================================== *)

Module ThermalState.
Import Py Qiskit.

(** The module-level names of the notebook: [n_qubits = 1] and the inverse
    temperature (the notebook's Greek-lettered variable, [0]). *)
Record globals : Type := mkGlobals { n_qubits : nat; inverse_temperature : R }.

Definition notebook_globals : globals := mkGlobals 1 0%R.

(** [[
def prepare_init_circuit(beta):
    qr = QuantumRegister(n_qubits*2)
    circuit = QuantumCircuit(qr)
    alpha = 2 * np.arctan(np.exp(- beta))
    for i in range(n_qubits):
        circuit.rx(alpha, qr[n_qubits+i])
        circuit.cx(qr[n_qubits+i], qr[i])
    return circuit
]] *)
Definition prepare_init_circuit {K} (g : globals) (beta : R)
  : prog (libcall K) QuantumCircuit :=
  qr <- call (NewQuantumRegister (n_qubits g * 2)) ;;
  let circuit := QuantumCircuit_init [qr] [] in
  let alpha := (2 * atan (exp (- beta)))%R in
  for_loop (range (n_qubits g))
    (fun i circuit =>
       anc <- qreg_getitem qr (Z.of_nat (n_qubits g) + i) ;;
       let circuit := rx alpha anc circuit in
       ctl <- qreg_getitem qr (Z.of_nat (n_qubits g) + i) ;;
       tgt <- qreg_getitem qr i ;;
       Ret (cx ctl tgt circuit))
    circuit.

(** The circuit [prepare_init_circuit] builds for one system qubit on the
    register [r]: RX by [theta] on the ancilla [r[1]], then a CNOT from the
    ancilla to the system qubit [r[0]]. *)
Definition thermal_circuit (r : QuantumRegister) (theta : R) : QuantumCircuit :=
  mkQuantumCircuit [r] []
    [mkInstruction (RXGate theta) [(r, 1)] [];
     mkInstruction CXGate [(r, 1); (r, 0)] []].

(** [circuit = prepare_init_circuit(0)]. *)
Definition circuit_cell {K} : prog (libcall K) QuantumCircuit :=
  prepare_init_circuit notebook_globals 0%R.

(** Modelled from the spec: [get_amplitudes] comes from
    [assignment_helper.py], which is not among the sources.  The grading
    cell compares its value with the state vector expected of the circuit,
    so it is taken to be the state vector the circuit prepares from the
    all-zeros state. *)
Definition get_amplitudes (c : QuantumCircuit) : option (list C) :=
  Simulator.statevector c.

(** [np.allclose(a, b)] with numpy's default tolerances: entry by entry,
    [|a - b| <= 1e-8 + 1e-5 * |b|]. *)
Definition allclose (a b : list C) : Prop :=
  Forall2
    (fun x y =>
       (Cabs (Csub x y) <= 1 / 100000000 + 1 / 100000 * Cabs y)%R)
    a b.

(** The amplitudes the grading cell expects:
    [np.array([1/np.sqrt(2), 0, 0, -1j/np.sqrt(2)])]. *)
Definition expected_amplitudes : list C :=
  [((1 / sqrt 2)%R, 0%R); (0%R, 0%R); (0%R, 0%R); (0%R, (- (1 / sqrt 2))%R)].

(** [dm = CircuitStateFn(circuit).to_density_matrix()]. *)
Definition dm (c : QuantumCircuit) : option (list (list C)) :=
  option_map Simulator.to_density_matrix (Simulator.statevector c).

End ThermalState.

(* ================================================================== *)
(** * Notebook 05: gate-model quantum computing                        *)
(* ================================================================== *)

Module GateModel.
Import Py Qiskit.

(** [[
q = QuantumRegister(2)
c = ClassicalRegister(2)
circuit = QuantumCircuit(q, c)
circuit.h(q[0])
circuit.cx(q[0], q[1])
circuit.measure(q, c)
]] *)
Definition bell_circuit {K} : prog (libcall K) QuantumCircuit :=
  q <- call (NewQuantumRegister 2) ;;
  c <- call (NewClassicalRegister 2) ;;
  let circuit := QuantumCircuit_init [q] [c] in
  q0 <- qreg_getitem q 0 ;;
  let circuit := h q0 circuit in
  ctl <- qreg_getitem q 0 ;;
  tgt <- qreg_getitem q 1 ;;
  let circuit := cx ctl tgt circuit in
  measure_registers q c circuit.

(** The circuit those cells build on the registers [q] and [c], as the
    notebook's compiled instruction list shows it. *)
Definition bell (q : QuantumRegister) (c : ClassicalRegister) : QuantumCircuit :=
  mkQuantumCircuit [q] [c]
    [mkInstruction HGate [(q, 0)] [];
     mkInstruction CXGate [(q, 0); (q, 1)] [];
     mkInstruction Measure [(q, 0)] [(c, 0)];
     mkInstruction Measure [(q, 1)] [(c, 1)]].

End GateModel.

(* ================================================================== *)
(** * A small framework instance, for running the code on examples      *)
(* ================================================================== *)

Module Example.
Import Py Qiskit.

(** Circuits are added by concatenating their instructions; an evolution is
    one boxed instruction on the register's qubits (the drawing of the
    notebook shows it as [Evolution^1]); states come from the simulator. *)
Definition framework : Framework Z := {|
  operator_add := fun a b => mkWeightedPauliOperator (paulis a ++ paulis b);
  circuit_add := fun a b => mkQuantumCircuit (qregs a) (cregs a) (data a ++ data b);
  operator_evolve := fun op st t slices r mode order =>
    mkQuantumCircuit [r] []
      [mkInstruction (OtherGate "Evolution^1" [t; IZR (Z.of_nat (List.length (paulis op)))])
                     (qubits_of r) []];
  execute_statevector := fun c b =>
    match Simulator.statevector c with Some psi => psi | None => [] end;
  evaluate_with_statevector := fun op psi => (RtoC (Simulator.Rsum (map Cnorm2 psi)), C0)
|}.

(** The notebook's operators as they print ([IX], [XI]; [ZZ]). *)
Definition Hm_value : WeightedPauliOperator Z :=
  mkWeightedPauliOperator
    [((-1)%Z, mkPauli [false; false] [true; false]);
     ((-1)%Z, mkPauli [false; false] [false; true])].
Definition Hc_value : WeightedPauliOperator Z :=
  mkWeightedPauliOperator [((-1)%Z, mkPauli [true; true] [false; false])].

Definition register : QuantumRegister := mkQuantumRegister 16 2.

(** Globals as in the notebook: [n_qubits = 2], [p = 1]. *)
Definition notebook_globals : VariationalCircuits.globals Z :=
  VariationalCircuits.mkGlobals Z 2 VariationalCircuits.notebook_J 1 Hm_value Hc_value
    register (mkQuantumCircuit [register] [] []) statevector_simulator.

(** The same globals with [p = 0]. *)
Definition globals_p0 : VariationalCircuits.globals Z :=
  VariationalCircuits.mkGlobals Z 2 VariationalCircuits.notebook_J 0 Hm_value Hc_value
    register (mkQuantumCircuit [register] [] []) statevector_simulator.

Definition state0 : lib_state := mkLibState 0 0.

End Example.

(* ================================================================== *)
(** * More of the notebooks: the cells around the helper functions      *)
(* ================================================================== *)

Module Cells.
Import Py Qiskit.

(** The Pauli operator with sigma-X on qubit [q] of [n] qubits, the one with
    sigma-Z on qubit [q], and the one with sigma-Z on [q1] and on [q2]. *)
Definition X_on (n q : nat) : Pauli := mkPauli (repeat false n) (basis_vector n q).
Definition Z_on (n q : nat) : Pauli := mkPauli (basis_vector n q) (repeat false n).
Definition ZZ_on (n q1 q2 : nat) : Pauli :=
  mkPauli (Np.logical_xor (basis_vector n q1) (basis_vector n q2)) (repeat false n).

(** The position a Python index [i] denotes in a sequence of length [n]:
    itself when [0 <= i < n], [i + n] when [-n <= i < 0], none otherwise. *)
Definition position (n : nat) (i : Z) : option nat :=
  if ((0 <=? i)%Z && (i <? Z.of_nat n)%Z)%bool then Some (Z.to_nat i)
  else if ((- Z.of_nat n <=? i)%Z && (i <? 0)%Z)%bool then Some (Z.to_nat (i + Z.of_nat n))
  else None.

(** The exception an array raises for an index [i] that denotes none of its
    positions. *)
Definition index_error (i : Z) : exn :=
  if Np.fits_index i then IndexError else OverflowError.

(** The integers an [int64] array can hold whose negation does not wrap. *)
Definition negatable (v : Z) : Prop :=
  (-9223372036854775808 < v < 9223372036854775808)%Z.

(** How many evolutions [create_circuit] has asked of the framework when it
    finds that [beta] or [gamma] has no entry [i]: two for each layer before
    [i], and one more when it is [gamma] that ends first. *)
Definition evolutions_before_failure (beta gamma : list R) : nat :=
  2 * Nat.min (List.length beta) (List.length gamma)
  + (if List.length gamma <? List.length beta then 1 else 0).

Section Notebook07.
Context {K : Type} {F : Framework K}.
Variable g : VariationalCircuits.globals K.

(** [[
beta_gamma = np.concatenate([beta, gamma])
n = len(beta_gamma)//2
circuit = create_circuit(beta_gamma[:n], beta_gamma[n:])
]] *)
Definition concatenated_circuit (beta gamma : list R) : prog (libcall K) QuantumCircuit :=
  let beta_gamma := beta ++ gamma in
  let n := List.length beta_gamma / 2 in
  VariationalCircuits.create_circuit g (slice_to beta_gamma n) (slice_from beta_gamma n).

(** [[
circuit = create_circuit(result['x'][:p], result['x'][p:])
]] *)
Definition optimal_circuit (x : list R) : prog (libcall K) QuantumCircuit :=
  VariationalCircuits.create_circuit g
    (slice_to x (VariationalCircuits.p g)) (slice_from x (VariationalCircuits.p g)).

(** The two framework calls of one layer of [create_circuit], in the order
    the comprehension makes them. *)
Definition layer_calls (bc : R * R) : list (anycall K) :=
  [AnyCall (OperatorEvolve (VariationalCircuits.Hc g) None (fst bc) 1
              (VariationalCircuits.qr g) "suzuki" 3);
   AnyCall (OperatorEvolve (VariationalCircuits.Hm g) None (snd bc) 1
              (VariationalCircuits.qr g) "suzuki" 3)].

End Notebook07.

(** The gates [prepare_init_circuit] appends on the register [r] for
    [n] system qubits: for each [i], RX by [alpha] on the ancilla [r[n+i]]
    and a CNOT from that ancilla to the system qubit [r[i]]. *)
Definition prepared_gates (r : QuantumRegister) (n : nat) (alpha : R)
    (first count : nat) : list Instruction :=
  flat_map
    (fun i => [mkInstruction (RXGate alpha) [(r, n + i)] [];
               mkInstruction CXGate [(r, n + i); (r, i)] []])
    (seq first count).

(** The array [J] has an entry [J[i, j]] for all [i, j < n]. *)
Definition covers (n : nat) (J : list (list Z)) : Prop :=
  forall i j, i < n -> j < n -> i < List.length J /\ j < List.length (nth i J []).

(** The element of the comprehension of [Hc] for the pair [(i, j)]: no
    term when [J[i, j]] is zero, and otherwise the one term [-J[i, j]] times
    sigma-Z on [i] and on [j]. *)
Definition coupling_term (n : nat) (J : list (list Z)) (ij : Z * Z)
  : WeightedPauliOperator Z :=
  let c := nth (Z.to_nat (snd ij)) (nth (Z.to_nat (fst ij)) J []) 0%Z in
  mkWeightedPauliOperator
    (if Z.eqb c 0 then []
     else [((- c)%Z, ZZ_on n (Z.to_nat (fst ij)) (Z.to_nat (snd ij)))]).

(** Every entry [J[i, j]] with [i, j < n] can be negated without wrapping. *)
Definition entries_negatable (n : nat) (J : list (list Z)) : Prop :=
  forall i j, i < n -> j < n -> negatable (nth j (nth i J []) 0%Z).

(** The term of [Hm] for qubit [i]: [-1] times sigma-X on [i]. *)
Definition field_term (n i : nat) : WeightedPauliOperator Z :=
  mkWeightedPauliOperator [((-1)%Z, X_on n i)].

(** Globals with two qubits and an array [J] of one entry only. *)
Definition globals_small_J : VariationalCircuits.globals Z :=
  VariationalCircuits.mkGlobals Z 2 [[0%Z]] 1 Example.Hm_value Example.Hc_value
    Example.register (mkQuantumCircuit [Example.register] [] []) statevector_simulator.

(** The notebook's globals with [p = 2]. *)
Definition globals_two_layers : VariationalCircuits.globals Z :=
  VariationalCircuits.mkGlobals Z 2 VariationalCircuits.notebook_J 2
    Example.Hm_value Example.Hc_value
    Example.register (mkQuantumCircuit [Example.register] [] []) statevector_simulator.

(** Globals with no qubit at all. *)
Definition globals_no_qubit : VariationalCircuits.globals Z :=
  VariationalCircuits.mkGlobals Z 0 [] 1 Example.Hm_value Example.Hc_value
    Example.register (mkQuantumCircuit [Example.register] [] []) statevector_simulator.

End Cells.

(* ================================================================== *)
(** * Notebook 08, Exercise 1: a random Ising model                    *)
(* ================================================================== *)

Module Annealing.
Import Py.

(** The calls into numpy's random generator.  What they answer is not
    fixed here: the cell is studied for every generator. *)
Inductive rngcall : Type -> Type :=
| RandomSeed (seed : Z) : rngcall unit
| RandomChoice (a : list R) : rngcall R
| RandomRandom : rngcall R.

(** A generator: how it answers a call from its state [S]. *)
Definition generator (S : Type) : Type := forall X, rngcall X -> S -> X * S.

(** Running a computation against a generator. *)
Fixpoint run_with {S A} (gen : generator S) (m : prog rngcall A) (s : S)
  : result A * S :=
  match m with
  | Ret a => (Ok a, s)
  | Raise e => (Err e, s)
  | Call c k => let (x, s') := gen _ c s in run_with gen (k x) s'
  end.

(** A Python dict, as the list of its items in insertion order;
    [d[k] = v] replaces the value of a key already present and appends a new
    key otherwise. *)
Fixpoint dict_set {Key V} (eqb : Key -> Key -> bool) (d : list (Key * V)) (k : Key) (v : V)
  : list (Key * V) :=
  match d with
  | [] => [(k, v)]
  | (k', v') :: d' =>
      if eqb k' k then (k', v) :: d' else (k', v') :: dict_set eqb d' k v
  end.

Definition keys {Key V} (d : list (Key * V)) : list Key := map fst d.

Definition pair_eqb (a b : Z * Z) : bool := (Z.eqb (fst a) (fst b) && Z.eqb (snd a) (snd b))%bool.

(** [itertools.combinations(l, 2)]: the pairs of elements of [l], each
    element paired with the later ones, in order. *)
Fixpoint combinations2 {A} (l : list A) : list (A * A) :=
  match l with
  | [] => []
  | a :: l' => map (fun b => (a, b)) l' ++ combinations2 l'
  end.

(** [0.1*np.arange(-5, 6)]. *)
Definition arange (lo hi : Z) : list Z :=
  map (fun k => (lo + Z.of_nat k)%Z) (seq 0 (Z.to_nat (hi - lo))).
Definition strengths : list R := map (fun k => (1 / 10 * IZR k)%R) (arange (-5) 6).

(** [[
np.random.seed(12)
n_spins = 5
h = {v: np.random.choice(0.1*np.arange(-5, 6), 1)[0] for v in range(n_spins)}
J = {}
for u, v in itertools.combinations(h, 2):
    if np.random.random() < .25:
        J[(u, v)] = np.random.choice(0.1*np.arange(-5, 6), 1)[0]
]] *)
Definition fields (n_spins : nat) : prog rngcall (list (Z * R)) :=
  for_loop (range n_spins)
    (fun v h => x <- call (RandomChoice strengths) ;; Ret (dict_set Z.eqb h v x))
    [].

Definition couplings (h : list (Z * R)) : prog rngcall (list ((Z * Z) * R)) :=
  for_loop (combinations2 (keys h))
    (fun uv J =>
       r <- call RandomRandom ;;
       if Rlt_dec r (25 / 100)
       then x <- call (RandomChoice strengths) ;; Ret (dict_set pair_eqb J uv x)
       else Ret J)
    [].

Definition ising_cell (n_spins : nat)
  : prog rngcall (list (Z * R) * list ((Z * Z) * R)) :=
  _ <- call (RandomSeed 12) ;;
  h <- fields n_spins ;;
  J <- couplings h ;;
  Ret (h, J).

(** The variables of [dimod.BinaryQuadraticModel(h, J, 0.0, dimod.SPIN)]:
    the keys of [h] and the end points of the keys of [J], each once. *)
Definition variables (h : list (Z * R)) (J : list ((Z * Z) * R)) : list Z :=
  nodup Z.eq_dec (keys h ++ flat_map (fun uv => [fst uv; snd uv]) (keys J)).

(** A generator for examples: it always picks the first entry of the array
    and draws the numbers of its state in turn. *)
Definition first_choice : generator (list R) :=
  fun X c =>
    match c in rngcall X return list R -> X * list R with
    | RandomSeed _ => fun s => (tt, s)
    | RandomChoice a => fun s => (nth 0 a 0%R, s)
    | RandomRandom => fun s => (nth 0 s 1%R, tl s)
    end.

End Annealing.

(* ================================================================== *)
(** * Facts about the Python fragment                                  *)
(* ================================================================== *)

Section PyFacts.
Import Py.
Context {E : Type -> Type}.

Lemma getitem_nat {A} (l : list A) (i : nat) (d : A) :
  i < List.length l ->
  getitem (E := E) l (Z.of_nat i) = Ret (nth i l d).
Proof.
  intros Hi. unfold getitem.
  destruct (Z.ltb_spec (Z.of_nat i) 0) as [Hneg | _]; [lia |].
  destruct (Z.leb_spec 0 (Z.of_nat i)) as [_ | Hneg]; [| lia].
  destruct (Z.ltb_spec (Z.of_nat i) (Z.of_nat (List.length l))) as [_ | Hge]; [| lia].
  cbn [andb]. rewrite Nat2Z.id.
  rewrite (nth_error_nth' l d Hi). reflexivity.
Qed.

Lemma getitem_in_range {A} (l : list A) (i : Z) (d : A) :
  (0 <= i < Z.of_nat (List.length l))%Z ->
  getitem (E := E) l i = Ret (nth (Z.to_nat i) l d).
Proof.
  intros Hi. rewrite <- (Z2Nat.id i) at 1 by lia.
  apply getitem_nat. lia.
Qed.

Lemma comprehension_ret {A B} (f : A -> prog E B) (f' : A -> B) (l : list A) :
  (forall a, In a l -> f a = Ret (f' a)) ->
  comprehension f l = Ret (map f' l).
Proof.
  induction l as [| a l IH]; intros Hf; cbn [comprehension map].
  - reflexivity.
  - rewrite (Hf a (or_introl eq_refl)). cbn [bind].
    rewrite IH by (intros b Hb; apply Hf; right; exact Hb).
    reflexivity.
Qed.

End PyFacts.

Lemma range_length n : List.length (Py.range n) = n.
Proof. unfold Py.range. rewrite length_map, length_seq. reflexivity. Qed.

Lemma in_range n i : In i (Py.range n) <-> (0 <= i < Z.of_nat n)%Z.
Proof.
  unfold Py.range. rewrite in_map_iff. split.
  - intros [k [<- Hk]]. apply in_seq in Hk. lia.
  - intros Hi. exists (Z.to_nat i). split; [lia | apply in_seq; lia].
Qed.

Lemma in_product2 {A} (l : list A) a b : In (a, b) (Py.product2 l) <-> In a l /\ In b l.
Proof.
  unfold Py.product2. rewrite in_flat_map. split.
  - intros [x [Hx Hab]]. apply in_map_iff in Hab as [y [Heq Hy]].
    inversion Heq; subst. split; assumption.
  - intros [Ha Hb]. exists a. split; [exact Ha |].
    apply in_map_iff. exists b. split; [reflexivity | exact Hb].
Qed.

(* ================================================================== *)
(** * Facts about numpy arrays and Pauli operators                     *)
(* ================================================================== *)

Lemma zeros_length n : List.length (Np.zeros n) = n.
Proof. apply repeat_length. Qed.

Lemma astype_bool_zeros n : Np.astype_bool (Np.zeros n) = repeat false n.
Proof.
  unfold Np.astype_bool, Np.zeros.
  induction n as [| n IH]; cbn; [reflexivity | f_equal; exact IH].
Qed.

Lemma eye_length n : List.length (Np.eye n) = n.
Proof. unfold Np.eye. rewrite length_map, length_seq. reflexivity. Qed.

Lemma nth_map_seq {A} (f : nat -> A) n i d : i < n -> nth i (map f (seq 0 n)) d = f i.
Proof.
  intros Hi.
  rewrite nth_indep with (d' := f 0) by (rewrite length_map, length_seq; exact Hi).
  rewrite (map_nth f (seq 0 n) 0 i), seq_nth by exact Hi. reflexivity.
Qed.

Lemma eye_nth n q : q < n -> nth q (Np.eye n) [] = Np.eye_row n q.
Proof. intros Hq. unfold Np.eye. rewrite nth_map_seq by exact Hq. reflexivity. Qed.

Lemma eye_row_length n q : List.length (Np.eye_row n q) = n.
Proof. unfold Np.eye_row. rewrite length_map, length_seq. reflexivity. Qed.

Lemma astype_bool_eye_row n q : Np.astype_bool (Np.eye_row n q) = Qiskit.basis_vector n q.
Proof.
  unfold Np.astype_bool, Np.eye_row, Qiskit.basis_vector. rewrite map_map.
  apply map_ext. intros j. destruct (Nat.eqb q j); reflexivity.
Qed.

Lemma basis_vector_length n q : List.length (Qiskit.basis_vector n q) = n.
Proof. unfold Qiskit.basis_vector. rewrite length_map, length_seq. reflexivity. Qed.

Lemma basis_vector_nth n q i :
  i < n -> nth i (Qiskit.basis_vector n q) false = Nat.eqb q i.
Proof.
  intros Hi. unfold Qiskit.basis_vector. rewrite nth_map_seq by exact Hi. reflexivity.
Qed.

Lemma repeat_false_nth n i : nth i (repeat false n) false = false.
Proof.
  revert i. induction n as [| n IH]; intros [| i]; cbn; auto.
Qed.

Lemma logical_xor_nth a b i :
  List.length a = List.length b ->
  nth i (Np.logical_xor a b) false = xorb (nth i a false) (nth i b false).
Proof.
  revert b i. induction a as [| x a IH]; intros [| y b] i Hlen; cbn in Hlen; try discriminate.
  - destruct i; reflexivity.
  - destruct i as [| i]; cbn; [reflexivity |].
    apply IH. lia.
Qed.

Lemma logical_xor_length a b :
  List.length a = List.length b -> List.length (Np.logical_xor a b) = List.length a.
Proof.
  intros Hlen. unfold Np.logical_xor. rewrite length_map, length_combine. lia.
Qed.

Lemma logical_xor_repeat_false n :
  Np.logical_xor (repeat false n) (repeat false n) = repeat false n.
Proof.
  unfold Np.logical_xor. induction n as [| n IH]; cbn; [reflexivity | f_equal; exact IH].
Qed.

Lemma logical_xor_self a : Np.logical_xor a a = repeat false (List.length a).
Proof.
  unfold Np.logical_xor. induction a as [| x a IH]; cbn; [reflexivity |].
  rewrite xorb_nilpotent. f_equal. exact IH.
Qed.

(** * The Pauli helpers on every index                                 *)
(* ================================================================== *)

Section IndexFacts.
Import Py.
Context {E : Type -> Type}.

Lemma getitem_out_of_range {A} (l : list A) (i : Z) :
  (i < - Z.of_nat (List.length l) \/ Z.of_nat (List.length l) <= i)%Z ->
  getitem (E := E) l i = Raise IndexError.
Proof.
  intros Hi. unfold getitem.
  destruct (Z.ltb_spec i 0) as [Hneg | Hpos].
  - destruct (Z.leb_spec 0 (i + Z.of_nat (List.length l))) as [H0 | H0]; [lia |].
    reflexivity.
  - destruct (Z.leb_spec 0 i) as [_ | H0]; [| lia].
    destruct (Z.ltb_spec i (Z.of_nat (List.length l))) as [Hlt | _]; [lia |].
    reflexivity.
Qed.

Lemma getitem_negative {A} (l : list A) (i : Z) :
  (- Z.of_nat (List.length l) <= i < 0)%Z ->
  getitem (E := E) l i = getitem (E := E) l (i + Z.of_nat (List.length l)).
Proof.
  intros Hi. unfold getitem.
  destruct (Z.ltb_spec i 0) as [_ | Hpos]; [| lia].
  destruct (Z.ltb_spec (i + Z.of_nat (List.length l)) 0) as [Hneg | _]; [lia |].
  reflexivity.
Qed.

Lemma getitem_position {A} (l : list A) (i : Z) (d : A) :
  getitem (E := E) l i
  = match Cells.position (List.length l) i with
    | Some k => Ret (nth k l d)
    | None => Raise IndexError
    end.
Proof.
  unfold Cells.position.
  destruct (Z.leb_spec 0 i) as [H0 | H0];
    destruct (Z.ltb_spec i (Z.of_nat (List.length l))) as [H1 | H1]; cbn [andb].
  - apply getitem_in_range. lia.
  - destruct (Z.leb_spec (- Z.of_nat (List.length l)) i);
      destruct (Z.ltb_spec i 0); cbn [andb]; try lia;
      apply getitem_out_of_range; lia.
  - destruct (Z.leb_spec (- Z.of_nat (List.length l)) i) as [H2 | H2];
      destruct (Z.ltb_spec i 0) as [H3 | H3]; cbn [andb]; try lia.
    + rewrite getitem_negative by lia. apply getitem_in_range. lia.
    + apply getitem_out_of_range. lia.
  - lia.
Qed.

End IndexFacts.

Lemma position_lt n i k : Cells.position n i = Some k -> k < n.
Proof.
  unfold Cells.position.
  destruct (Z.leb_spec 0 i) as [H0 | H0];
    destruct (Z.ltb_spec i (Z.of_nat n)) as [H1 | H1]; cbn [andb];
    try (intros Heq; inversion Heq; lia);
    destruct (Z.leb_spec (- Z.of_nat n) i) as [H2 | H2];
    destruct (Z.ltb_spec i 0) as [H3 | H3]; cbn [andb];
    intros Heq; inversion Heq; lia.
Qed.

Lemma logical_xor_comm a b : Np.logical_xor a b = Np.logical_xor b a.
Proof.
  unfold Np.logical_xor. revert b.
  induction a as [| x a IH]; intros [| y b]; cbn; try reflexivity.
  rewrite xorb_comm. f_equal. apply IH.
Qed.


(* ================================================================== *)
(** * Indexing an array                                                *)
(* ================================================================== *)

Lemma position_in_range n (i : Z) :
  (0 <= i < Z.of_nat n)%Z -> Cells.position n i = Some (Z.to_nat i).
Proof.
  intros Hi. unfold Cells.position.
  destruct (Z.leb_spec 0 i); [| lia].
  destruct (Z.ltb_spec i (Z.of_nat n)); [| lia]. reflexivity.
Qed.

Lemma position_nonneg n (i : Z) (k : nat) :
  (0 <= i)%Z -> Cells.position n i = Some k -> Z.to_nat i < n.
Proof.
  intros Hi. unfold Cells.position.
  destruct (Z.leb_spec 0 i); [| lia].
  destruct (Z.ltb_spec i (Z.of_nat n)); cbn [andb].
  - intros _. lia.
  - destruct (Z.leb_spec (- Z.of_nat n) i); destruct (Z.ltb_spec i 0); cbn [andb];
      try lia; discriminate.
Qed.

Lemma position_negative n (i : Z) :
  (- Z.of_nat n <= i < 0)%Z -> Cells.position n i = Some (Z.to_nat (i + Z.of_nat n)).
Proof.
  intros Hi. unfold Cells.position.
  destruct (Z.leb_spec 0 i); [lia |]. cbn [andb].
  destruct (Z.leb_spec (- Z.of_nat n) i); [| lia].
  destruct (Z.ltb_spec i 0); [| lia]. reflexivity.
Qed.

Lemma position_outside n (i : Z) :
  (i < - Z.of_nat n \/ Z.of_nat n <= i)%Z -> Cells.position n i = None.
Proof.
  intros Hi. unfold Cells.position.
  destruct (Z.leb_spec 0 i); destruct (Z.ltb_spec i (Z.of_nat n));
    cbn [andb]; try lia;
    destruct (Z.leb_spec (- Z.of_nat n) i); destruct (Z.ltb_spec i 0);
    cbn [andb]; try lia; reflexivity.
Qed.

Lemma position_some_iff n (i : Z) :
  (exists k, Cells.position n i = Some k) <-> (- Z.of_nat n <= i < Z.of_nat n)%Z.
Proof.
  split.
  - intros [k Hk].
    destruct (Z_lt_le_dec i (- Z.of_nat n)) as [Hlo | Hlo];
      [rewrite position_outside in Hk by lia; discriminate |].
    destruct (Z_lt_le_dec i (Z.of_nat n)) as [Hhi | Hhi]; [lia |].
    rewrite position_outside in Hk by lia. discriminate.
  - intros Hi. destruct (Z_lt_le_dec i 0).
    + eexists. apply position_negative. lia.
    + eexists. apply position_in_range. lia.
Qed.

(** An array answers an index by the entry at the position the index
    denotes, and raises when it denotes none: [IndexError] when the index
    fits the index type, [OverflowError] when it does not. *)
Lemma np_getitem_position {E : Type -> Type} {A} (l : list A) (i : Z) (d : A) :
  Np.getitem (E := E) l i
  = match Cells.position (List.length l) i with
    | Some k => Py.Ret (nth k l d)
    | None => Py.Raise (Cells.index_error i)
    end.
Proof.
  unfold Np.getitem.
  destruct (Z.leb_spec (- Z.of_nat (List.length l)) i) as [Hlo | Hlo];
    destruct (Z.ltb_spec i (Z.of_nat (List.length l))) as [Hhi | Hhi]; cbn [andb].
  - rewrite (getitem_position l i d).
    destruct (proj2 (position_some_iff (List.length l) i) (conj Hlo Hhi)) as [k ->].
    reflexivity.
  - rewrite position_outside by lia. unfold Cells.index_error.
    destruct (Np.fits_index i); reflexivity.
  - rewrite position_outside by lia. unfold Cells.index_error.
    destruct (Np.fits_index i); reflexivity.
  - rewrite position_outside by lia. unfold Cells.index_error.
    destruct (Np.fits_index i); reflexivity.
Qed.

Lemma getitem_eye_position {E : Type -> Type} (n : nat) (q : Z) :
  Np.getitem (E := E) (Np.eye n) q
  = match Cells.position n q with
    | Some k => Py.Ret (Np.eye_row n k)
    | None => Py.Raise (Cells.index_error q)
    end.
Proof.
  rewrite (np_getitem_position _ _ []), eye_length.
  destruct (Cells.position n q) as [k |] eqn:Hk; [| reflexivity].
  rewrite eye_nth by (eapply position_lt; exact Hk). reflexivity.
Qed.

Lemma index_error_fits (i : Z) :
  (-9223372036854775808 <= i < 9223372036854775808)%Z ->
  Cells.index_error i = Py.IndexError.
Proof.
  intros Hi. unfold Cells.index_error, Np.fits_index.
  destruct (Z.leb_spec (-9223372036854775808) i); [| lia].
  destruct (Z.ltb_spec i 9223372036854775808); [| lia]. reflexivity.
Qed.

Lemma index_error_too_large (i : Z) :
  (i < -9223372036854775808 \/ 9223372036854775808 <= i)%Z ->
  Cells.index_error i = Py.OverflowError.
Proof.
  intros Hi. unfold Cells.index_error, Np.fits_index.
  destruct (Z.leb_spec (-9223372036854775808) i);
    destruct (Z.ltb_spec i 9223372036854775808); cbn [andb]; try lia; reflexivity.
Qed.

(** Negating an entry does not wrap unless the entry is [-2^63]; the
    negation of a non-zero entry is not zero. *)
Lemma negative_exact (v : Z) : Cells.negatable v -> Np.negative v = (- v)%Z.
Proof.
  unfold Cells.negatable, Np.negative. intros Hv.
  rewrite Z.mod_small by lia. lia.
Qed.

(* ================================================================== *)
(** * The Pauli helpers of notebook 07                                 *)
(* ================================================================== *)

Section PauliHelpers.
Import Py Qiskit VariationalCircuits.
Context {K : Type} {N : Number K}.
Variable g : globals K.

Lemma Pauli_init_zeros_row {E} (q : nat) :
  Pauli_init (E := E) (Np.zeros (n_qubits g)) (Np.eye_row (n_qubits g) q)
  = Ret (Cells.X_on (n_qubits g) q).
Proof.
  unfold Pauli_init. rewrite zeros_length, eye_row_length, Nat.eqb_refl.
  rewrite astype_bool_zeros, astype_bool_eye_row. reflexivity.
Qed.

Lemma Pauli_init_row_zeros {E} (q : nat) :
  Pauli_init (E := E) (Np.eye_row (n_qubits g) q) (Np.zeros (n_qubits g))
  = Ret (Cells.Z_on (n_qubits g) q).
Proof.
  unfold Pauli_init. rewrite zeros_length, eye_row_length, Nat.eqb_refl.
  rewrite astype_bool_zeros, astype_bool_eye_row. reflexivity.
Qed.

Lemma Pauli_mul_z {E} (q1 q2 : nat) :
  Pauli_mul (E := E) (Cells.Z_on (n_qubits g) q1) (Cells.Z_on (n_qubits g) q2)
  = Ret (Cells.ZZ_on (n_qubits g) q1 q2).
Proof.
  unfold Pauli_mul, Cells.Z_on, Cells.ZZ_on. cbn [Pauli_z Pauli_x].
  rewrite !basis_vector_length, Nat.eqb_refl, logical_xor_repeat_false. reflexivity.
Qed.

(** The three helpers on every index: the position the index denotes
    decides between the operator and the exception. *)
Lemma pauli_x_position (q : Z) (c : K) :
  pauli_x g q c
  = match Cells.position (n_qubits g) q with
    | Some k => Ret (WeightedPauliOperator_init c (Cells.X_on (n_qubits g) k))
    | None => Raise (Cells.index_error q)
    end.
Proof.
  unfold pauli_x. rewrite getitem_eye_position.
  destruct (Cells.position (n_qubits g) q) as [k |]; cbn [bind]; [| reflexivity].
  rewrite Pauli_init_zeros_row. reflexivity.
Qed.

Lemma pauli_z_position (q : Z) (c : K) :
  pauli_z g q c
  = match Cells.position (n_qubits g) q with
    | Some k => Ret (WeightedPauliOperator_init c (Cells.Z_on (n_qubits g) k))
    | None => Raise (Cells.index_error q)
    end.
Proof.
  unfold pauli_z. rewrite getitem_eye_position.
  destruct (Cells.position (n_qubits g) q) as [k |]; cbn [bind]; [| reflexivity].
  rewrite Pauli_init_row_zeros. reflexivity.
Qed.

Lemma product_pauli_z_position (q1 q2 : Z) (c : K) :
  product_pauli_z g q1 q2 c
  = match Cells.position (n_qubits g) q1 with
    | Some k1 =>
        match Cells.position (n_qubits g) q2 with
        | Some k2 => Ret (WeightedPauliOperator_init c (Cells.ZZ_on (n_qubits g) k1 k2))
        | None => Raise (Cells.index_error q2)
        end
    | None => Raise (Cells.index_error q1)
    end.
Proof.
  unfold product_pauli_z. rewrite !getitem_eye_position.
  destruct (Cells.position (n_qubits g) q1) as [k1 |]; cbn [bind]; [| reflexivity].
  rewrite Pauli_init_row_zeros. cbn [bind].
  destruct (Cells.position (n_qubits g) q2) as [k2 |]; cbn [bind]; [| reflexivity].
  rewrite Pauli_init_row_zeros. cbn [bind].
  rewrite Pauli_mul_z. reflexivity.
Qed.

Lemma init_nonzero (c : K) (P : Pauli) :
  is_zero c = false -> WeightedPauliOperator_init c P = mkWeightedPauliOperator [(c, P)].
Proof. intros Hc. unfold WeightedPauliOperator_init. rewrite Hc. reflexivity. Qed.

Lemma init_zero (c : K) (P : Pauli) :
  is_zero c = true -> WeightedPauliOperator_init c P = mkWeightedPauliOperator [].
Proof. intros Hc. unfold WeightedPauliOperator_init. rewrite Hc. reflexivity. Qed.

Lemma sigma_at_X_on (q i : nat) :
  i < n_qubits g ->
  sigma_at (Cells.X_on (n_qubits g) q) i = if Nat.eqb i q then SigmaX else SigmaI.
Proof.
  intros Hi. unfold sigma_at, Cells.X_on. cbn [Pauli_x Pauli_z].
  rewrite repeat_false_nth, basis_vector_nth by exact Hi.
  rewrite (Nat.eqb_sym i). destruct (Nat.eqb q i); reflexivity.
Qed.

Lemma sigma_at_Z_on (q i : nat) :
  i < n_qubits g ->
  sigma_at (Cells.Z_on (n_qubits g) q) i = if Nat.eqb i q then SigmaZ else SigmaI.
Proof.
  intros Hi. unfold sigma_at, Cells.Z_on. cbn [Pauli_x Pauli_z].
  rewrite repeat_false_nth, basis_vector_nth by exact Hi.
  rewrite (Nat.eqb_sym i). destruct (Nat.eqb q i); reflexivity.
Qed.

Lemma ZZ_on_nth (q1 q2 i : nat) :
  i < n_qubits g ->
  nth i (Pauli_z (Cells.ZZ_on (n_qubits g) q1 q2)) false
  = xorb (Nat.eqb i q1) (Nat.eqb i q2).
Proof.
  intros Hi. unfold Cells.ZZ_on. cbn [Pauli_z].
  rewrite logical_xor_nth by (rewrite !basis_vector_length; reflexivity).
  rewrite !basis_vector_nth by exact Hi.
  rewrite (Nat.eqb_sym i q1), (Nat.eqb_sym i q2). reflexivity.
Qed.

Lemma ZZ_on_length (q1 q2 : nat) :
  List.length (Pauli_z (Cells.ZZ_on (n_qubits g) q1 q2)) = n_qubits g.
Proof.
  unfold Cells.ZZ_on. cbn [Pauli_z].
  rewrite logical_xor_length; rewrite !basis_vector_length; reflexivity.
Qed.

Lemma ZZ_on_same (q : nat) : Cells.ZZ_on (n_qubits g) q q = Pauli_identity (n_qubits g).
Proof.
  unfold Cells.ZZ_on, Pauli_identity.
  rewrite logical_xor_self, basis_vector_length. reflexivity.
Qed.

(** C4 (as amended).  For [0 <= qubit < n_qubits], [pauli_x(qubit, coeff)]
    returns, without raising and without calling into the framework: for a
    coefficient that is not zero, an operator with exactly one term, of
    weight [coeff], whose Pauli has the [x] array [e_qubit] and the [z] array
    all zeros (sigma-X on [qubit], the identity on every other qubit); for a
    coefficient that is zero, the operator without any term, because the
    constructor drops a term of weight zero. *)
Theorem pauli_x_single_term (qubit : Z) (coeff : K) :
  (0 <= qubit < Z.of_nat (n_qubits g))%Z ->
  let P := mkPauli (repeat false (n_qubits g)) (basis_vector (n_qubits g) (Z.to_nat qubit)) in
  (is_zero coeff = false ->
   pauli_x g qubit coeff = Ret (mkWeightedPauliOperator [(coeff, P)]))
  /\ (is_zero coeff = true ->
      pauli_x g qubit coeff = Ret (mkWeightedPauliOperator []))
  /\ (forall i, i < n_qubits g ->
        nth i (Pauli_x P) false = Nat.eqb i (Z.to_nat qubit)
        /\ nth i (Pauli_z P) false = false
        /\ sigma_at P i = if Nat.eqb i (Z.to_nat qubit) then SigmaX else SigmaI).
Proof.
  intros Hq P.
  assert (Hrun : pauli_x g qubit coeff = Ret (WeightedPauliOperator_init coeff P)).
  { rewrite pauli_x_position, position_in_range by exact Hq. reflexivity. }
  split; [| split].
  - intros Hc. rewrite Hrun, init_nonzero by exact Hc. reflexivity.
  - intros Hc. rewrite Hrun, init_zero by exact Hc. reflexivity.
  - intros i Hi. repeat apply conj.
    + unfold P. cbn [Pauli_x]. rewrite basis_vector_nth by exact Hi. apply Nat.eqb_sym.
    + unfold P. cbn [Pauli_z]. apply repeat_false_nth.
    + apply (sigma_at_X_on (Z.to_nat qubit) i Hi).
Qed.

(** C5 (as amended).  For [q1 <> q2], both in [[0, n_qubits)], and a
    coefficient that is not zero, [product_pauli_z(q1, q2, coeff)] returns an
    operator with exactly one term of weight [coeff] whose Pauli is the
    product of the sigma-Z Paulis that [pauli_z] builds on [q1] and on [q2]:
    its [z] array is set exactly at [q1] and [q2], its [x] array is zero, so
    it is sigma-Z on [q1] and [q2] and the identity elsewhere.  For a
    coefficient that is zero the operator returned has no term. *)
Theorem product_pauli_z_distinct (q1 q2 : Z) (coeff : K) :
  (0 <= q1 < Z.of_nat (n_qubits g))%Z ->
  (0 <= q2 < Z.of_nat (n_qubits g))%Z ->
  q1 <> q2 ->
  exists P Z1 Z2,
    (is_zero coeff = false ->
     product_pauli_z g q1 q2 coeff = Ret (mkWeightedPauliOperator [(coeff, P)])
     /\ pauli_z g q1 coeff = Ret (mkWeightedPauliOperator [(coeff, Z1)])
     /\ pauli_z g q2 coeff = Ret (mkWeightedPauliOperator [(coeff, Z2)]))
    /\ (is_zero coeff = true ->
        product_pauli_z g q1 q2 coeff = Ret (mkWeightedPauliOperator []))
    /\ Pauli_mul (E := libcall K) Z1 Z2 = Ret P
    /\ Pauli_x P = repeat false (n_qubits g)
    /\ List.length (Pauli_z P) = n_qubits g
    /\ (forall i, i < n_qubits g ->
          nth i (Pauli_z P) false
          = (Nat.eqb i (Z.to_nat q1) || Nat.eqb i (Z.to_nat q2))%bool
          /\ sigma_at P i
             = if (Nat.eqb i (Z.to_nat q1) || Nat.eqb i (Z.to_nat q2))%bool
               then SigmaZ else SigmaI).
Proof.
  intros H1 H2 Hne.
  exists (Cells.ZZ_on (n_qubits g) (Z.to_nat q1) (Z.to_nat q2)),
         (Cells.Z_on (n_qubits g) (Z.to_nat q1)),
         (Cells.Z_on (n_qubits g) (Z.to_nat q2)).
  assert (Hnth : forall i, i < n_qubits g ->
            nth i (Pauli_z (Cells.ZZ_on (n_qubits g) (Z.to_nat q1) (Z.to_nat q2))) false
            = (Nat.eqb i (Z.to_nat q1) || Nat.eqb i (Z.to_nat q2))%bool).
  { intros i Hi. rewrite ZZ_on_nth by exact Hi.
    destruct (Nat.eqb_spec i (Z.to_nat q1)), (Nat.eqb_spec i (Z.to_nat q2));
      try reflexivity.
    exfalso. apply Hne. lia. }
  repeat apply conj.
  - intros Hc. repeat apply conj.
    + rewrite product_pauli_z_position, !position_in_range by assumption.
      apply f_equal, init_nonzero, Hc.
    + rewrite pauli_z_position, position_in_range by assumption.
      apply f_equal, init_nonzero, Hc.
    + rewrite pauli_z_position, position_in_range by assumption.
      apply f_equal, init_nonzero, Hc.
  - intros Hc. rewrite product_pauli_z_position, !position_in_range by assumption.
    apply f_equal, init_zero, Hc.
  - apply Pauli_mul_z.
  - reflexivity.
  - apply ZZ_on_length.
  - intros i Hi. split; [apply Hnth, Hi |].
    unfold sigma_at. rewrite (Hnth i Hi).
    unfold Cells.ZZ_on. cbn [Pauli_x]. rewrite repeat_false_nth.
    destruct (Nat.eqb i (Z.to_nat q1) || Nat.eqb i (Z.to_nat q2))%bool; reflexivity.
Qed.

Lemma product_pauli_z_same (q : Z) (coeff : K) :
  (0 <= q < Z.of_nat (n_qubits g))%Z ->
  product_pauli_z g q q coeff
  = Ret (WeightedPauliOperator_init coeff (Pauli_identity (n_qubits g))).
Proof.
  intros Hq. rewrite product_pauli_z_position, !position_in_range by exact Hq.
  rewrite ZZ_on_same. reflexivity.
Qed.

End PauliHelpers.

(* ================================================================== *)
(** * The cost Hamiltonian's terms                                     *)
(* ================================================================== *)

Section CostTerms.
Import Py Qiskit VariationalCircuits.
Context {E : Type -> Type}.

Lemma getitem_cases {A} (l : list A) (i : Z) :
  (exists a, getitem (E := E) l i = Ret a) \/ getitem (E := E) l i = Raise IndexError.
Proof.
  unfold getitem.
  destruct ((0 <=? _)%Z && _)%bool; [| right; reflexivity].
  destruct (nth_error l _); [left; eexists; reflexivity | right; reflexivity].
Qed.

Lemma comprehension_inv {A B} (f : A -> prog E B) (l : list A) (bs : list B) :
  comprehension f l = Ret bs -> Forall2 (fun a b => f a = Ret b) l bs.
Proof.
  revert bs. induction l as [| a l IH]; intros bs H; cbn [comprehension] in H.
  - inversion H. constructor.
  - destruct (f a) as [b | e | X c k] eqn:Hfa; cbn [bind] in H; try discriminate.
    destruct (comprehension f l) as [bs' | e | X c k] eqn:Hl; cbn [bind] in H;
      try discriminate.
    inversion H; subst. constructor; [exact Hfa | apply IH; reflexivity].
Qed.

Lemma Forall2_In_impl {A B} (R Q : A -> B -> Prop) (l : list A) (bs : list B) :
  Forall2 R l bs ->
  (forall a b, In a l -> R a b -> Q a b) ->
  Forall2 Q l bs.
Proof.
  induction 1 as [| a b l bs Hab _ IH]; intros Himp; constructor.
  - apply Himp; [left; reflexivity | exact Hab].
  - apply IH. intros a' b' Hin. apply Himp. right. exact Hin.
Qed.

End CostTerms.




(** The notebook's [n_qubits = 2]: [pauli_x(0, -1)], the first term of [Hm]
    (printed as [IX]). *)
Lemma pauli_x_single_term_witness :
  VariationalCircuits.pauli_x Example.notebook_globals 0 (-1)%Z
  = Py.Ret (Qiskit.mkWeightedPauliOperator
              [((-1)%Z, Qiskit.mkPauli [false; false] [true; false])]).
Proof.
  refine (proj1 (pauli_x_single_term Example.notebook_globals 0%Z (-1)%Z _) eq_refl).
  cbn. lia.
Defined.

(** C4 as stated fails for the coefficient zero: [pauli_x(0, 0)] returns an
    operator that holds no term, not one term of weight zero. *)
Lemma pauli_x_zero_weight_no_term :
  (0 <= 0 < Z.of_nat (VariationalCircuits.n_qubits Example.notebook_globals))%Z
  /\ VariationalCircuits.pauli_x Example.notebook_globals 0 0%Z
     = Py.Ret (Qiskit.mkWeightedPauliOperator [])
  /\ VariationalCircuits.pauli_x Example.notebook_globals 0 0%Z
     <> Py.Ret (Qiskit.mkWeightedPauliOperator
                  [(0%Z, Qiskit.mkPauli [false; false] [true; false])]).
Proof.
  split; [cbn; lia |]. split; [reflexivity |]. cbv. discriminate.
Qed.

(** The notebook's only non-zero coupling: [product_pauli_z(0, 1, -1)]
    (printed as [ZZ]). *)
Lemma product_pauli_z_distinct_witness :
  exists P Z1 Z2,
    (VariationalCircuits.product_pauli_z Example.notebook_globals 0 1 (-1)%Z
     = Py.Ret (Qiskit.mkWeightedPauliOperator [((-1)%Z, P)])
     /\ VariationalCircuits.pauli_z Example.notebook_globals 0 (-1)%Z
        = Py.Ret (Qiskit.mkWeightedPauliOperator [((-1)%Z, Z1)])
     /\ VariationalCircuits.pauli_z Example.notebook_globals 1 (-1)%Z
        = Py.Ret (Qiskit.mkWeightedPauliOperator [((-1)%Z, Z2)]))
    /\ Qiskit.Pauli_mul (E := Qiskit.libcall Z) Z1 Z2 = Py.Ret P
    /\ Qiskit.Pauli_x P = [false; false]
    /\ Qiskit.Pauli_z P = [true; true].
Proof.
  assert (H0 : (0 <= 0 < Z.of_nat (VariationalCircuits.n_qubits Example.notebook_globals))%Z)
    by (cbn; lia).
  assert (H1 : (0 <= 1 < Z.of_nat (VariationalCircuits.n_qubits Example.notebook_globals))%Z)
    by (cbn; lia).
  assert (Hne : 0%Z <> 1%Z) by lia.
  destruct (product_pauli_z_distinct Example.notebook_globals 0%Z 1%Z (-1)%Z H0 H1 Hne)
    as (P & Z1 & Z2 & Hnonzero & _ & Hmul & Hx & _ & _).
  exists P, Z1, Z2.
  pose proof (Hnonzero eq_refl) as (Hzz & Hz1 & Hz2).
  split; [repeat split; assumption |]. split; [exact Hmul |]. split; [exact Hx |].
  cbv in Hzz. inversion Hzz. reflexivity.
Defined.

(** C5 as stated fails for the coefficient zero: [product_pauli_z(1, 0, 0)]
    returns an operator that holds no term, not one term of weight zero. *)
Lemma product_pauli_z_zero_weight_no_term :
  (0 <= 1 < Z.of_nat (VariationalCircuits.n_qubits Example.notebook_globals))%Z
  /\ (0 <= 0 < Z.of_nat (VariationalCircuits.n_qubits Example.notebook_globals))%Z
  /\ VariationalCircuits.product_pauli_z Example.notebook_globals 1 0 0%Z
     = Py.Ret (Qiskit.mkWeightedPauliOperator [])
  /\ VariationalCircuits.product_pauli_z Example.notebook_globals 1 0 0%Z
     <> Py.Ret (Qiskit.mkWeightedPauliOperator
                  [(0%Z, Qiskit.mkPauli [true; true] [false; false])]).
Proof.
  split; [cbn; lia |]. split; [cbn; lia |]. split; [reflexivity |]. cbv. discriminate.
Qed.

(** The terms of the mixing Hamiltonian, under the labels the notebook
    prints for them ([IX] with weight -1, then [XI] with weight -1), and the
    label of the one coupling of the cost Hamiltonian. *)
Example Hm_terms_labels :
  VariationalCircuits.Hm_terms Example.notebook_globals
  = Py.Ret [Qiskit.mkWeightedPauliOperator
              [((-1)%Z, Qiskit.mkPauli [false; false] [true; false])];
            Qiskit.mkWeightedPauliOperator
              [((-1)%Z, Qiskit.mkPauli [false; false] [false; true])]]
  /\ Qiskit.to_label (Qiskit.mkPauli [false; false] [true; false]) = "IX"%string
  /\ Qiskit.to_label (Qiskit.mkPauli [false; false] [false; true]) = "XI"%string
  /\ Qiskit.to_label (Qiskit.mkPauli [true; true] [false; false]) = "ZZ"%string.
Proof. repeat split. Qed.

(** Indices outside the register raise, negative ones count from the end. *)
Example pauli_x_out_of_range :
  VariationalCircuits.pauli_x Example.notebook_globals 2 1%Z = Py.Raise Py.IndexError
  /\ VariationalCircuits.pauli_x Example.notebook_globals 9223372036854775808 1%Z
     = Py.Raise Py.OverflowError
  /\ VariationalCircuits.pauli_x Example.notebook_globals (-1) 1%Z
     = VariationalCircuits.pauli_x Example.notebook_globals 1 1%Z.
Proof. repeat split. Qed.

(* ================================================================== *)
(** * Running computations against the framework                       *)
(* ================================================================== *)

Section RunFacts.
Import Py Qiskit.
Context {K : Type} {F : Framework K}.

Lemma run_bind {A B} (m : prog (libcall K) A) (f : A -> prog (libcall K) B) s :
  run (bind m f) s
  = match run m s with
    | (Ok a, s') => run (f a) s'
    | (Err e, s') => (Err e, s')
    end.
Proof.
  revert s. induction m as [a | e | X c k IH]; intros s; cbn [bind run].
  - reflexivity.
  - reflexivity.
  - destruct (handle c s) as [[x | e] s']; [apply IH | reflexivity].
Qed.

Lemma calls_bind {A B} (m : prog (libcall K) A) (f : A -> prog (libcall K) B) s :
  calls (bind m f) s
  = calls m s ++ match run m s with
                 | (Ok a, s') => calls (f a) s'
                 | (Err _, _) => []
                 end.
Proof.
  revert s. induction m as [a | e | X c k IH]; intros s; cbn [bind run calls app].
  - reflexivity.
  - reflexivity.
  - f_equal. destruct (handle c s) as [[x | e] s']; [apply IH | reflexivity].
Qed.

Lemma run_comprehension_cons {A B} (f : A -> prog (libcall K) B) (a : A) (l : list A) s :
  run (comprehension f (a :: l)) s
  = match run (f a) s with
    | (Ok b, s1) =>
        match run (comprehension f l) s1 with
        | (Ok bs, s2) => (Ok (b :: bs), s2)
        | (Err e, s2) => (Err e, s2)
        end
    | (Err e, s1) => (Err e, s1)
    end.
Proof.
  cbn [comprehension]. rewrite run_bind.
  destruct (run (f a) s) as [[b | e] s1]; [| reflexivity].
  rewrite run_bind.
  destruct (run (comprehension f l) s1) as [[bs | e] s2]; reflexivity.
Qed.

Lemma calls_comprehension_cons {A B} (f : A -> prog (libcall K) B) (a : A) (l : list A) s :
  calls (comprehension f (a :: l)) s
  = calls (f a) s ++ match run (f a) s with
                     | (Ok _, s1) => calls (comprehension f l) s1
                     | (Err _, _) => []
                     end.
Proof.
  cbn [comprehension]. rewrite calls_bind.
  destruct (run (f a) s) as [[b | e] s1]; [| reflexivity].
  rewrite calls_bind.
  destruct (run (comprehension f l) s1) as [[bs | e] s2]; cbn [calls];
    rewrite app_nil_r; reflexivity.
Qed.

(** A computation that makes no call gives the same outcome from every
    framework state, leaves the state as it found it and logs no call. *)
Lemma pure_run {A} (m : prog (libcall K) A) :
  pure m ->
  forall s s', run m s = (fst (run m s'), s) /\ calls m s = [].
Proof.
  destruct m as [a | e | X c k]; cbn [pure]; intros Hm s s';
    [split; reflexivity | split; reflexivity | destruct Hm].
Qed.

Lemma pure_bind {E : Type -> Type} {A B} (m : prog E A) (f : A -> prog E B) :
  pure m -> (forall a, pure (f a)) -> pure (bind m f).
Proof.
  destruct m as [a | e | X c k]; cbn [pure bind]; intros Hm Hf;
    [apply Hf | exact I | destruct Hm].
Qed.

Lemma pure_getitem {E : Type -> Type} {A} (l : list A) i : pure (getitem (E := E) l i).
Proof.
  unfold getitem.
  destruct ((0 <=? _)%Z && _)%bool; [| exact I].
  destruct (nth_error l _); exact I.
Qed.

Lemma pure_for_loop {E : Type -> Type} {A S} (l : list A) (body : A -> S -> prog E S) s0 :
  (forall a s, pure (body a s)) -> pure (for_loop l body s0).
Proof.
  intros Hbody. revert s0. induction l as [| a l IH]; intros s0; cbn [for_loop].
  - exact I.
  - apply pure_bind; [apply Hbody | exact IH].
Qed.

Lemma registers_created_S (s : lib_state) :
  mkLibState (S (qreg_counter s)) (creg_counter s) = registers_created 1 s.
Proof. unfold registers_created. f_equal. lia. Qed.

Lemma registers_created_add (a b : nat) (s : lib_state) :
  registers_created b (registers_created a s) = registers_created (a + b) s.
Proof. unfold registers_created. cbn [qreg_counter creg_counter]. f_equal. lia. Qed.

Lemma registers_created_0 (s : lib_state) : registers_created 0 s = s.
Proof. destruct s. unfold registers_created. cbn [qreg_counter creg_counter]. f_equal. lia. Qed.

End RunFacts.

Section ProgramFacts.
Import Py.
Context {E : Type -> Type}.

Lemma comprehension_ext {A B} (f f' : A -> prog E B) (l : list A) :
  (forall a, In a l -> f a = f' a) -> comprehension f l = comprehension f' l.
Proof.
  induction l as [| a l IH]; intros Hf; cbn [comprehension].
  - reflexivity.
  - rewrite (Hf a (or_introl eq_refl)).
    rewrite IH by (intros b Hb; apply Hf; right; exact Hb). reflexivity.
Qed.

(** An index below [n] reads the same from the first [n] entries of a list
    as from the whole list. *)
Lemma getitem_firstn {A} (l : list A) (n i : nat) :
  i < n -> getitem (E := E) (firstn n l) (Z.of_nat i) = getitem (E := E) l (Z.of_nat i).
Proof.
  intros Hi. destruct (Nat.lt_ge_cases i (List.length l)) as [Hlt | Hge].
  - destruct l as [| d l]; [cbn in Hlt; lia |].
    rewrite (getitem_nat _ i d) by (rewrite length_firstn; lia).
    rewrite (getitem_nat _ i d) by exact Hlt.
    rewrite nth_firstn. destruct (Nat.ltb_spec i n); [reflexivity | lia].
  - rewrite !getitem_out_of_range; [reflexivity | lia |].
    rewrite length_firstn. lia.
Qed.

End ProgramFacts.

(* ================================================================== *)
(** * [evolve], [create_circuit] and [evaluate_circuit]                *)
(* ================================================================== *)

Section Qaoa.
Import Py Qiskit VariationalCircuits.
Context {K : Type} {F : Framework K}.
Variable g : globals K.

(** One element of the comprehension of [create_circuit]. *)
Let layer (beta gamma : list R) (i : Z) : prog (libcall K) QuantumCircuit :=
  b <- getitem beta i ;;
  cost <- evolve (Hc g) b (qr g) ;;
  c <- getitem gamma i ;;
  mix <- evolve (Hm g) c (qr g) ;;
  Ret (circuit_add cost mix).

Lemma run_evolve (op : WeightedPauliOperator K) (t : R) (r : QuantumRegister) s :
  run (evolve op t r) s
  = (Ok (operator_evolve op None t 1 r "suzuki" 3), registers_created 1 s).
Proof.
  unfold evolve, call. cbn [run handle]. rewrite registers_created_S. reflexivity.
Qed.

Lemma calls_evolve (op : WeightedPauliOperator K) (t : R) (r : QuantumRegister) s :
  calls (evolve op t r) s = [AnyCall (OperatorEvolve op None t 1 r "suzuki" 3)].
Proof. reflexivity. Qed.

Lemma run_layer (beta gamma : list R) (i : nat) s :
  i < List.length beta -> i < List.length gamma ->
  run (layer beta gamma (Z.of_nat i)) s
  = (Ok (layer_circuit g (nth i beta 0%R, nth i gamma 0%R)), registers_created 2 s).
Proof.
  intros Hb Hc. unfold layer.
  rewrite (getitem_nat beta i 0%R Hb). cbn [bind].
  rewrite run_bind, run_evolve.
  rewrite (getitem_nat gamma i 0%R Hc). cbn [bind].
  rewrite run_bind, run_evolve. cbn [run].
  rewrite registers_created_add. reflexivity.
Qed.

Lemma calls_layer (beta gamma : list R) (i : nat) s :
  i < List.length beta -> i < List.length gamma ->
  calls (layer beta gamma (Z.of_nat i)) s
  = Cells.layer_calls g (nth i beta 0%R, nth i gamma 0%R).
Proof.
  intros Hb Hc. unfold layer.
  rewrite (getitem_nat beta i 0%R Hb). cbn [bind].
  rewrite calls_bind, run_evolve, calls_evolve.
  rewrite (getitem_nat gamma i 0%R Hc). cbn [bind].
  rewrite calls_bind, run_evolve, calls_evolve. reflexivity.
Qed.

Lemma run_layer_no_beta (beta gamma : list R) (i : nat) s :
  List.length beta <= i ->
  run (layer beta gamma (Z.of_nat i)) s = (Err IndexError, s).
Proof.
  intros Hi. unfold layer. rewrite getitem_out_of_range by lia. reflexivity.
Qed.

Lemma run_layer_no_gamma (beta gamma : list R) (i : nat) s :
  i < List.length beta -> List.length gamma <= i ->
  run (layer beta gamma (Z.of_nat i)) s = (Err IndexError, registers_created 1 s).
Proof.
  intros Hb Hc. unfold layer.
  rewrite (getitem_nat beta i 0%R Hb). cbn [bind].
  rewrite run_bind, run_evolve.
  rewrite getitem_out_of_range by lia. reflexivity.
Qed.

(** The layers [first .. first + count - 1], run one after the other: each
    asks two evolutions of the framework. *)
Lemma run_layers_from (beta gamma : list R) (count : nat) :
  forall (first : nat) s,
    first + count <= List.length beta -> first + count <= List.length gamma ->
    run (comprehension (layer beta gamma) (map Z.of_nat (seq first count))) s
    = (Ok (map (fun i => layer_circuit g (nth i beta 0%R, nth i gamma 0%R))
               (seq first count)),
       registers_created (2 * count) s)
    /\ calls (comprehension (layer beta gamma) (map Z.of_nat (seq first count))) s
       = flat_map (fun i => Cells.layer_calls g (nth i beta 0%R, nth i gamma 0%R))
                  (seq first count).
Proof.
  induction count as [| count IH]; intros first s Hb Hc.
  - cbn [seq map comprehension run calls flat_map]. rewrite registers_created_0.
    split; reflexivity.
  - cbn [seq map flat_map].
    destruct (IH (S first) (registers_created 2 s)) as [Hrun Hcalls]; [lia | lia |].
    rewrite run_comprehension_cons, calls_comprehension_cons.
    rewrite run_layer, calls_layer by lia.
    rewrite Hrun, Hcalls, registers_created_add. split; [| reflexivity].
    do 2 f_equal. lia.
Qed.

Lemma layers_of_length n beta gamma : List.length (layers_of n beta gamma) = n.
Proof. unfold layers_of. rewrite length_map, length_seq. reflexivity. Qed.

Lemma create_circuit_layers (beta gamma : list R) :
  create_circuit g beta gamma
  = (steps <- comprehension (layer beta gamma) (range (p g)) ;;
     circuit_evolv <- reduce circuit_add steps ;;
     Ret (circuit_add (circuit_init g) circuit_evolv)).
Proof. reflexivity. Qed.

(** [create_circuit] as the code computes it: the layers are summed by
    [reduce], which raises [TypeError] when there is none, and the sum is
    added to [circuit_init]; the [2p] evolutions have each created a register
    inside the framework. *)
Lemma run_create_circuit (beta gamma : list R) s :
  p g <= List.length beta -> p g <= List.length gamma ->
  run (create_circuit g beta gamma) s
  = (match summed_layers g (layers_of (p g) beta gamma) with
     | Some circuit_evolv => Ok (circuit_add (circuit_init g) circuit_evolv)
     | None => Err TypeError
     end, registers_created (2 * p g) s).
Proof.
  intros Hb Hc. rewrite create_circuit_layers, run_bind. unfold range.
  rewrite (proj1 (run_layers_from beta gamma (p g) 0 s Hb Hc)).
  fold (layers_of (p g) beta gamma). rewrite <- map_map.
  fold (layers_of (p g) beta gamma).
  destruct (layers_of (p g) beta gamma) as [| first rest]; reflexivity.
Qed.

Lemma calls_create_circuit (beta gamma : list R) s :
  p g <= List.length beta -> p g <= List.length gamma ->
  calls (create_circuit g beta gamma) s
  = flat_map (Cells.layer_calls g) (layers_of (p g) beta gamma).
Proof.
  intros Hb Hc. rewrite create_circuit_layers, calls_bind. unfold range.
  destruct (run_layers_from beta gamma (p g) 0 s Hb Hc) as [Hrun Hcalls].
  rewrite Hrun, Hcalls.
  assert (Hrest : forall steps s',
             calls (circuit_evolv <- reduce circuit_add steps ;;
                    Ret (circuit_add (circuit_init g) circuit_evolv)) s' = []).
  { intros [| c cs] s'; reflexivity. }
  rewrite Hrest, app_nil_r.
  unfold layers_of. rewrite !flat_map_concat_map, map_map. reflexivity.
Qed.

(** [create_circuit] reads the first [p] entries of each array only. *)
Lemma create_circuit_firstn (beta gamma : list R) :
  create_circuit g beta gamma
  = create_circuit g (firstn (p g) beta) (firstn (p g) gamma).
Proof.
  rewrite !create_circuit_layers. f_equal.
  apply comprehension_ext. intros i Hi.
  apply in_map_iff in Hi as [k [<- Hk]]. apply in_seq in Hk.
  unfold layer. rewrite !getitem_firstn by lia. reflexivity.
Qed.

Lemma range_split (n m : nat) :
  m < n ->
  range n = map Z.of_nat (seq 0 m) ++ Z.of_nat m :: map Z.of_nat (seq (S m) (n - S m)).
Proof.
  intros Hm. unfold range.
  replace n with (m + S (n - S m)) at 1 by lia.
  rewrite seq_app, map_app. cbn [seq map Nat.add]. reflexivity.
Qed.

Lemma run_comprehension_app_raise {A B} (f : A -> prog (libcall K) B)
    (l1 l2 : list A) (a : A) (bs : list B) (e : exn) s s1 s2 :
  run (comprehension f l1) s = (Ok bs, s1) ->
  run (f a) s1 = (Err e, s2) ->
  run (comprehension f (l1 ++ a :: l2)) s = (Err e, s2).
Proof.
  revert bs s. induction l1 as [| x l1 IH]; intros bs s Hl1 Ha; cbn [app].
  - cbn [comprehension run] in Hl1. inversion Hl1; subst.
    rewrite run_comprehension_cons, Ha. reflexivity.
  - rewrite run_comprehension_cons in Hl1 |- *.
    destruct (run (f x) s) as [[b | e'] sx]; [| discriminate].
    destruct (run (comprehension f l1) sx) as [[bs' | e'] sy] eqn:Hrest; [| discriminate].
    inversion Hl1; subst. rewrite (IH bs' sx Hrest Ha). reflexivity.
Qed.

(** [create_circuit] on arrays of which one is shorter than [p]: the
    evolutions asked before the missing entry is found have been made. *)
Lemma run_create_circuit_short (beta gamma : list R) s :
  List.length beta < p g \/ List.length gamma < p g ->
  run (create_circuit g beta gamma) s
  = (Err IndexError, registers_created (Cells.evolutions_before_failure beta gamma) s).
Proof.
  intros Hshort. rewrite create_circuit_layers, run_bind.
  set (m := Nat.min (List.length beta) (List.length gamma)).
  rewrite (range_split (p g) m) by (unfold m; lia).
  destruct (run_layers_from beta gamma m 0 s) as [Hrun _]; [unfold m; lia | unfold m; lia |].
  unfold Cells.evolutions_before_failure. fold m.
  destruct (Nat.ltb_spec (List.length gamma) (List.length beta)) as [Hgt | Hle].
  - rewrite (run_comprehension_app_raise _ _ _ _ _ IndexError _ _ _ Hrun
               (run_layer_no_gamma beta gamma m _ ltac:(unfold m; lia) ltac:(unfold m; lia))).
    rewrite registers_created_add. reflexivity.
  - rewrite (run_comprehension_app_raise _ _ _ _ _ IndexError _ _ _ Hrun
               (run_layer_no_beta beta gamma m _ ltac:(unfold m; lia))).
    rewrite Nat.add_0_r. reflexivity.
Qed.

Hypothesis circuit_add_assoc :
  forall a b c : QuantumCircuit,
    circuit_add a (circuit_add b c) = circuit_add (circuit_add a b) c.

Lemma circuit_add_fold_left (l : list QuantumCircuit) (a b : QuantumCircuit) :
  circuit_add a (fold_left circuit_add l b) = fold_left circuit_add l (circuit_add a b).
Proof.
  revert b. induction l as [| c l IH]; intros b; cbn [fold_left].
  - reflexivity.
  - rewrite IH, circuit_add_assoc. reflexivity.
Qed.

Lemma fold_left_layers (layers : list (R * R)) (acc : QuantumCircuit) :
  fold_left circuit_add (map (layer_circuit g) layers) acc
  = fold_left
      (fun acc bc =>
         circuit_add
           (circuit_add acc (operator_evolve (Hc g) None (fst bc) 1 (qr g) "suzuki" 3))
           (operator_evolve (Hm g) None (snd bc) 1 (qr g) "suzuki" 3))
      layers acc.
Proof.
  revert acc. induction layers as [| bc layers IH]; intros acc; cbn [map fold_left].
  - reflexivity.
  - rewrite IH. unfold layer_circuit. rewrite circuit_add_assoc. reflexivity.
Qed.

End Qaoa.

(** C1 (as amended).  When [p >= 1], the arrays [beta] and [gamma] have at
    least [p] entries and [+] on circuits is associative, [create_circuit(beta,
    gamma)] returns the circuit obtained from [circuit_init] by appending, for
    [i = 0 .. p-1] in increasing order, first the evolution circuit of [Hc]
    under [beta[i]] and then the evolution circuit of [Hm] under [gamma[i]].
    Each of the [2p] evolutions has created one register inside the
    framework, so the register counter has advanced by [2p]. *)
Theorem create_circuit_appends_layers {K : Type} {F : Qiskit.Framework K}
    (g : VariationalCircuits.globals K) (beta gamma : list R) (s : Qiskit.lib_state) :
  (forall a b c : Qiskit.QuantumCircuit,
      Qiskit.circuit_add a (Qiskit.circuit_add b c)
      = Qiskit.circuit_add (Qiskit.circuit_add a b) c) ->
  1 <= VariationalCircuits.p g ->
  VariationalCircuits.p g <= List.length beta ->
  VariationalCircuits.p g <= List.length gamma ->
  Qiskit.run (VariationalCircuits.create_circuit g beta gamma) s
  = (Py.Ok (VariationalCircuits.appended_layers g
              (VariationalCircuits.layers_of (VariationalCircuits.p g) beta gamma)),
     Qiskit.registers_created (2 * VariationalCircuits.p g) s).
Proof.
  intros Hassoc Hp Hb Hc.
  rewrite run_create_circuit by assumption.
  pose proof (layers_of_length (VariationalCircuits.p g) beta gamma) as Hlen.
  destruct (VariationalCircuits.layers_of (VariationalCircuits.p g) beta gamma)
    as [| first rest]; cbn [List.length] in Hlen; [lia |].
  cbn [VariationalCircuits.summed_layers]. do 2 f_equal.
  rewrite (circuit_add_fold_left Hassoc).
  unfold VariationalCircuits.appended_layers.
  rewrite <- (fold_left_layers g Hassoc (first :: rest)). reflexivity.
Qed.

Section QaoaExamples.
#[local] Existing Instance Example.framework.

Lemma example_circuit_add_assoc :
  forall a b c : Qiskit.QuantumCircuit,
    Qiskit.circuit_add a (Qiskit.circuit_add b c)
    = Qiskit.circuit_add (Qiskit.circuit_add a b) c.
Proof. intros a b c. cbn. rewrite app_assoc. reflexivity. Qed.

(** The notebook's [p = 1], with angles [beta = [PI/4]] and [gamma = [PI]]:
    two evolutions, two registers created. *)
Lemma create_circuit_appends_layers_witness :
  Qiskit.run (VariationalCircuits.create_circuit Example.notebook_globals [(PI / 4)%R] [PI])
             Example.state0
  = (Py.Ok (VariationalCircuits.appended_layers Example.notebook_globals
              [((PI / 4)%R, PI)]), Qiskit.mkLibState 2 0).
Proof.
  apply (create_circuit_appends_layers Example.notebook_globals [(PI / 4)%R] [PI]
           Example.state0 example_circuit_add_assoc); cbn; lia.
Defined.

(** C1 as stated fails when [p = 0]: the claim makes [create_circuit] return
    [circuit_init] with nothing appended, but [reduce] over the empty list of
    layers raises [TypeError]. *)
Lemma create_circuit_no_layers_raises :
  VariationalCircuits.p Example.globals_p0 <= List.length (@nil R)
  /\ Qiskit.run (VariationalCircuits.create_circuit Example.globals_p0 [] []) Example.state0
     = (Py.Err Py.TypeError, Example.state0)
  /\ forall s' : Qiskit.lib_state,
       Qiskit.run (VariationalCircuits.create_circuit Example.globals_p0 [] []) Example.state0
       <> (Py.Ok (VariationalCircuits.appended_layers Example.globals_p0
                    (VariationalCircuits.layers_of
                       (VariationalCircuits.p Example.globals_p0) [] [])),
           s').
Proof.
  split; [cbn; lia |]. split; [reflexivity |]. intros s'. discriminate.
Qed.

End QaoaExamples.

(** C3.  [evolve(h, t, qr)] is exactly one call into the framework, the
    operator's own [evolve] with the arguments [None, t, 1], the register
    [qr], expansion mode ['suzuki'] and expansion order [3]; it makes no other
    call and returns what that call returns.  (Inside the framework that
    call creates one register, which advances the register counter by
    one.) *)
Theorem evolve_is_one_framework_call {K : Type} {F : Qiskit.Framework K}
    (h : Qiskit.WeightedPauliOperator K) (t : R) (qr : Qiskit.QuantumRegister)
    (s : Qiskit.lib_state) :
  VariationalCircuits.evolve h t qr
  = Py.call (Qiskit.OperatorEvolve h None t 1 qr "suzuki" 3)
  /\ Qiskit.calls (VariationalCircuits.evolve h t qr) s
     = [Qiskit.AnyCall (Qiskit.OperatorEvolve h None t 1 qr "suzuki" 3)]
  /\ Qiskit.run (VariationalCircuits.evolve h t qr) s
     = (Py.Ok (Qiskit.operator_evolve h None t 1 qr "suzuki" 3),
        Qiskit.registers_created 1 s).
Proof.
  split; [reflexivity |]. split; [reflexivity |]. apply run_evolve.
Qed.

(** C2 (as amended).  When [p >= 1] and [beta_gamma] has length [2p],
    [evaluate_circuit(beta_gamma)] splits the vector into two halves of
    length [p], builds [create_circuit(first half, second half)], and returns
    the real part of the mean that the framework's [evaluate_with_statevector]
    gives for [Hc] on the state vector that the framework's execution of that
    circuit yields; the value returned is a real number.  (The [2p]
    evolutions of [create_circuit] have each created a register inside the
    framework.) *)
Theorem evaluate_circuit_expectation {K : Type} {F : Qiskit.Framework K}
    (g : VariationalCircuits.globals K) (beta_gamma : list R) (s : Qiskit.lib_state) :
  1 <= VariationalCircuits.p g ->
  List.length beta_gamma = 2 * VariationalCircuits.p g ->
  let n := List.length beta_gamma / 2 in
  let first_half := Py.slice_to beta_gamma n in
  let second_half := Py.slice_from beta_gamma n in
  List.length first_half = VariationalCircuits.p g
  /\ List.length second_half = VariationalCircuits.p g
  /\ first_half ++ second_half = beta_gamma
  /\ exists circuit : Qiskit.QuantumCircuit,
       Qiskit.run (VariationalCircuits.create_circuit g first_half second_half) s
       = (Py.Ok circuit, Qiskit.registers_created (2 * VariationalCircuits.p g) s)
       /\ fst (Qiskit.run (VariationalCircuits.evaluate_circuit g beta_gamma) s)
          = Py.Ok (np_real
                     (fst (Qiskit.evaluate_with_statevector
                             (VariationalCircuits.Hc g)
                             (Qiskit.execute_statevector circuit
                                (VariationalCircuits.backend g))))).
Proof.
  intros Hp Hlen n first_half second_half.
  assert (Hn : n = VariationalCircuits.p g).
  { unfold n. rewrite Hlen, Nat.mul_comm. apply Nat.div_mul. discriminate. }
  assert (H1 : List.length first_half = VariationalCircuits.p g).
  { unfold first_half, Py.slice_to. rewrite length_firstn. lia. }
  assert (H2 : List.length second_half = VariationalCircuits.p g).
  { unfold second_half, Py.slice_from. rewrite length_skipn. lia. }
  split; [exact H1 |]. split; [exact H2 |].
  split; [apply firstn_skipn |].
  pose proof (run_create_circuit g first_half second_half s) as Hrun.
  rewrite H1, H2 in Hrun. specialize (Hrun (le_n _) (le_n _)).
  pose proof (layers_of_length (VariationalCircuits.p g) first_half second_half) as Hl.
  destruct (VariationalCircuits.layers_of (VariationalCircuits.p g) first_half second_half)
    as [| first rest]; cbn [List.length] in Hl; [lia |].
  cbn [VariationalCircuits.summed_layers] in Hrun.
  eexists. split; [exact Hrun |].
  unfold VariationalCircuits.evaluate_circuit.
  fold n. fold first_half. fold second_half.
  rewrite run_bind, Hrun. reflexivity.
Qed.

Section EvaluateExamples.
#[local] Existing Instance Example.framework.

(** The notebook's [p = 1] and a vector of two angles. *)
Lemma evaluate_circuit_expectation_witness :
  exists circuit : Qiskit.QuantumCircuit,
    Qiskit.run (VariationalCircuits.create_circuit Example.notebook_globals [(PI / 4)%R] [PI])
               Example.state0
    = (Py.Ok circuit, Qiskit.mkLibState 2 0)
    /\ fst (Qiskit.run (VariationalCircuits.evaluate_circuit Example.notebook_globals
                          [(PI / 4)%R; PI]) Example.state0)
       = Py.Ok (np_real
                  (fst (Qiskit.evaluate_with_statevector Example.Hc_value
                          (Qiskit.execute_statevector circuit
                             Qiskit.statevector_simulator)))).
Proof.
  apply (evaluate_circuit_expectation Example.notebook_globals [(PI / 4)%R; PI]
           Example.state0); cbn; lia.
Defined.

(** C2 as stated fails when [p = 0]: the vector of length [2p] is empty,
    and [evaluate_circuit] raises the [TypeError] of [create_circuit] instead
    of returning a number. *)
Lemma evaluate_circuit_empty_raises :
  List.length (@nil R) = 2 * VariationalCircuits.p Example.globals_p0
  /\ fst (Qiskit.run (VariationalCircuits.evaluate_circuit Example.globals_p0 [])
                     Example.state0)
     = Py.Err Py.TypeError
  /\ forall r : R,
       fst (Qiskit.run (VariationalCircuits.evaluate_circuit Example.globals_p0 [])
                       Example.state0)
       <> Py.Ok r.
Proof.
  split; [reflexivity |]. split; [reflexivity |]. intros r. discriminate.
Qed.

End EvaluateExamples.

(* ================================================================== *)
(** * Simulating the circuits of notebooks 08 and 05                   *)
(* ================================================================== *)

Lemma Cmul_0_r a : Cmul a C0 = C0.
Proof. unfold Cmul, C0. cbn [fst snd]. f_equal; ring. Qed.

Lemma Cmul_1_r a : Cmul a C1 = a.
Proof. destruct a. unfold Cmul, C1. cbn [fst snd]. f_equal; ring. Qed.

Lemma Cadd_0_r a : Cadd a C0 = a.
Proof. destruct a. unfold Cadd, C0. cbn [fst snd]. f_equal; ring. Qed.

Lemma Cadd_0_l a : Cadd C0 a = a.
Proof. destruct a. unfold Cadd, C0. cbn [fst snd]. f_equal; ring. Qed.

Lemma inv_sqrt2_sqr : (1 / sqrt 2 * (1 / sqrt 2) = 1 / 2)%R.
Proof.
  unfold Rdiv. rewrite !Rmult_1_l, <- Rinv_mult, sqrt_sqrt by lra. reflexivity.
Qed.

(** The rotation angle of [prepare_init_circuit(0)]. *)
Lemma alpha_at_zero : (2 * atan (exp (- 0)) = PI / 2)%R.
Proof. rewrite Ropp_0, exp_0, atan_1. field. Qed.

Lemma qreg_eqb_refl r : Simulator.qreg_eqb r r = true.
Proof. unfold Simulator.qreg_eqb. rewrite !Nat.eqb_refl. reflexivity. Qed.

Lemma creg_eqb_refl r : Simulator.creg_eqb r r = true.
Proof. unfold Simulator.creg_eqb. rewrite !Nat.eqb_refl. reflexivity. Qed.

Lemma qubit_position_single r k :
  k < Qiskit.qreg_size r -> Simulator.qubit_position [r] (r, k) = Some k.
Proof.
  intros Hk. cbn [Simulator.qubit_position fst snd]. rewrite qreg_eqb_refl.
  destruct (Nat.ltb_spec k (Qiskit.qreg_size r)); [reflexivity | lia].
Qed.

Lemma clbit_position_single r k :
  k < Qiskit.creg_size r -> Simulator.clbit_position [r] (r, k) = Some k.
Proof.
  intros Hk. cbn [Simulator.clbit_position fst snd]. rewrite creg_eqb_refl.
  destruct (Nat.ltb_spec k (Qiskit.creg_size r)); [reflexivity | lia].
Qed.

Section ThermalCircuit.
Import Py Qiskit.
Context {K : Type} {F : Framework K}.

(** The circuit that [prepare_init_circuit(0)] returns when the framework's
    register counter stands at [s]: a rotation of the ancilla (qubit 1 of the
    fresh register) and a CNOT from the ancilla to the system qubit. *)
Lemma run_circuit_cell (s : lib_state) :
  run (ThermalState.circuit_cell (K := K)) s
  = (Ok (ThermalState.thermal_circuit (mkQuantumRegister (qreg_counter s) 2) (PI / 2)),
     mkLibState (S (qreg_counter s)) (creg_counter s)).
Proof.
  unfold ThermalState.circuit_cell, ThermalState.prepare_init_circuit.
  cbn. rewrite Ropp_0, exp_0, atan_1.
  replace (2 * (PI / 4))%R with (PI / 2)%R by field.
  reflexivity.
Qed.

Lemma statevector_thermal_circuit (r : QuantumRegister) (theta : R) :
  qreg_size r = 2 ->
  Simulator.statevector (ThermalState.thermal_circuit r theta)
  = Some [(cos (theta / 2), 0%R); C0; C0; (0%R, (- sin (theta / 2))%R)].
Proof.
  intros Hsize. unfold Simulator.statevector, ThermalState.thermal_circuit.
  cbn [data qregs fold_left Simulator.num_qubits fold_right].
  unfold Simulator.apply_instruction at 1 2.
  cbn [operation qargs].
  rewrite !qubit_position_single by lia.
  cbn [option_map]. rewrite Hsize.
  unfold Simulator.apply_cx, Simulator.apply_gate1, Simulator.zero_state.
  cbn -[cos sin Cmul Cadd].
  rewrite !Cmul_0_r, !Cmul_1_r, !Cadd_0_r. reflexivity.
Qed.

Lemma amplitudes_at_zero (r : QuantumRegister) :
  qreg_size r = 2 ->
  Simulator.statevector (ThermalState.thermal_circuit r (PI / 2))
  = Some [((1 / sqrt 2)%R, 0%R); C0; C0; (0%R, (- (1 / sqrt 2))%R)].
Proof.
  intros Hsize. rewrite statevector_thermal_circuit by exact Hsize.
  replace (PI / 2 / 2)%R with (PI / 4)%R by field.
  rewrite cos_PI4, sin_PI4. reflexivity.
Qed.

End ThermalCircuit.

Lemma allclose_refl (a : list C) : ThermalState.allclose a a.
Proof.
  unfold ThermalState.allclose. induction a as [| x a IH]; constructor; [| exact IH].
  replace (Cabs (Csub x x)) with 0%R.
  - pose proof (sqrt_pos (Cnorm2 x)) as Hpos. unfold Cabs. lra.
  - unfold Cabs, Csub, Cnorm2. cbn [fst snd]. rewrite !Rminus_diag.
    rewrite Rmult_0_l, Rplus_0_l, sqrt_0. reflexivity.
Qed.

(** C10.  The grading assertion of Exercise 3 holds: whatever the state of
    the framework, [prepare_init_circuit(0)] returns the circuit that applies
    RX(pi/2) to the ancilla and a CNOT from the ancilla to the system qubit,
    and the state vector of that circuit is [[1/sqrt(2), 0, 0, -i/sqrt(2)]]
    exactly, which the closeness test of the assertion accepts. *)
Theorem prepare_init_circuit_amplitudes {K : Type} {F : Qiskit.Framework K}
    (s : Qiskit.lib_state) :
  exists (circuit : Qiskit.QuantumCircuit) (s' : Qiskit.lib_state),
    Qiskit.run (ThermalState.prepare_init_circuit (K := K) ThermalState.notebook_globals 0%R) s
    = (Py.Ok circuit, s')
    /\ Qiskit.data circuit
       = [Qiskit.mkInstruction (Qiskit.RXGate (PI / 2))
            [(Qiskit.mkQuantumRegister (Qiskit.qreg_counter s) 2, 1)] [];
          Qiskit.mkInstruction Qiskit.CXGate
            [(Qiskit.mkQuantumRegister (Qiskit.qreg_counter s) 2, 1);
             (Qiskit.mkQuantumRegister (Qiskit.qreg_counter s) 2, 0)] []]
    /\ ThermalState.get_amplitudes circuit
       = Some [((1 / sqrt 2)%R, 0%R); (0%R, 0%R); (0%R, 0%R); (0%R, (- (1 / sqrt 2))%R)]
    /\ (exists amplitudes : list C,
          ThermalState.get_amplitudes circuit = Some amplitudes
          /\ ThermalState.allclose amplitudes ThermalState.expected_amplitudes).
Proof.
  do 2 eexists. split; [apply run_circuit_cell |]. split; [reflexivity |].
  assert (Hamp : ThermalState.get_amplitudes
                   (ThermalState.thermal_circuit
                      (Qiskit.mkQuantumRegister (Qiskit.qreg_counter s) 2) (PI / 2))
                 = Some ThermalState.expected_amplitudes).
  { unfold ThermalState.get_amplitudes. apply amplitudes_at_zero. reflexivity. }
  split; [exact Hamp |].
  exists ThermalState.expected_amplitudes. split; [exact Hamp | apply allclose_refl].
Qed.

(** C6.  The density matrix [dm] of the state prepared by
    [prepare_init_circuit(0)] is the one the notebook prints, and tracing out
    the ancilla (qubit 1) leaves the maximally mixed state, the matrix with
    [1/2] on the diagonal and zero elsewhere. *)
Theorem partial_trace_maximally_mixed {K : Type} {F : Qiskit.Framework K}
    (s : Qiskit.lib_state) :
  exists (circuit : Qiskit.QuantumCircuit) (s' : Qiskit.lib_state) (rho : list (list C)),
    Qiskit.run (ThermalState.prepare_init_circuit (K := K) ThermalState.notebook_globals 0%R) s
    = (Py.Ok circuit, s')
    /\ ThermalState.dm circuit = Some rho
    /\ rho = [[((1 / 2)%R, 0%R); C0; C0; (0%R, (1 / 2)%R)];
              [C0; C0; C0; C0];
              [C0; C0; C0; C0];
              [(0%R, (- (1 / 2))%R); C0; C0; ((1 / 2)%R, 0%R)]]
    /\ Simulator.partial_trace rho [1]
       = [[((1 / 2)%R, 0%R); (0%R, 0%R)];
          [(0%R, 0%R); ((1 / 2)%R, 0%R)]].
Proof.
  do 3 eexists. split; [apply run_circuit_cell |].
  split.
  { unfold ThermalState.dm. rewrite amplitudes_at_zero by reflexivity.
    cbn [option_map]. reflexivity. }
  assert (Hrho :
    Simulator.to_density_matrix
      [((1 / sqrt 2)%R, 0%R); C0; C0; (0%R, (- (1 / sqrt 2))%R)]
    = [[((1 / 2)%R, 0%R); C0; C0; (0%R, (1 / 2)%R)];
       [C0; C0; C0; C0];
       [C0; C0; C0; C0];
       [(0%R, (- (1 / 2))%R); C0; C0; ((1 / 2)%R, 0%R)]]).
  { unfold Simulator.to_density_matrix, Cmul, Cconj, C0. cbn [map fst snd].
    pose proof inv_sqrt2_sqr as Hsq.
    repeat (f_equal; try (apply injective_projections; cbn [fst snd]; nra)). }
  split; [exact Hrho |].
  rewrite Hrho.
  unfold Simulator.partial_trace, Simulator.trace_out, Simulator.entry,
    Simulator.insert_bit, Cadd, C0.
  cbn -[Rplus Rdiv Ropp].
  repeat (f_equal; try (apply injective_projections; cbn [fst snd]; lra)).
Qed.

Section BellCircuit.
Import Py Qiskit.
Context {K : Type} {F : Framework K}.

Lemma run_bell_circuit (s : lib_state) :
  run (GateModel.bell_circuit (K := K)) s
  = (Ok (GateModel.bell (mkQuantumRegister (qreg_counter s) 2)
                        (mkClassicalRegister (creg_counter s) 2)),
     mkLibState (S (qreg_counter s)) (S (creg_counter s))).
Proof. reflexivity. Qed.

Lemma statevector_bell (q : QuantumRegister) (c : ClassicalRegister) :
  qreg_size q = 2 ->
  Simulator.statevector (GateModel.bell q c)
  = Some [((1 / sqrt 2)%R, 0%R); C0; C0; ((1 / sqrt 2)%R, 0%R)].
Proof.
  intros Hsize. unfold Simulator.statevector, GateModel.bell.
  cbn [data qregs fold_left Simulator.num_qubits fold_right].
  unfold Simulator.apply_instruction at 1 2 3 4.
  cbn [operation qargs].
  rewrite !qubit_position_single by lia.
  cbn [option_map]. rewrite Hsize.
  unfold Simulator.apply_cx, Simulator.apply_gate1, Simulator.zero_state.
  cbn -[sqrt Rdiv Cmul Cadd].
  rewrite !Cmul_0_r, !Cmul_1_r, !Cadd_0_r. reflexivity.
Qed.

Lemma measurements_bell (q : QuantumRegister) (c : ClassicalRegister) :
  qreg_size q = 2 -> creg_size c = 2 ->
  Simulator.measurements (GateModel.bell q c) = [(0, 0); (1, 1)].
Proof.
  intros Hq Hc. unfold Simulator.measurements, GateModel.bell.
  cbn [data qregs cregs flat_map operation qargs cargs app].
  rewrite !qubit_position_single, !clbit_position_single by lia.
  reflexivity.
Qed.

Lemma probabilities_bell (q : QuantumRegister) (c : ClassicalRegister) :
  qreg_size q = 2 -> creg_size c = 2 ->
  Simulator.outcome_probabilities (GateModel.bell q c)
  = Some [(1 / 2)%R; 0%R; 0%R; (1 / 2)%R].
Proof.
  intros Hq Hc. unfold Simulator.outcome_probabilities.
  rewrite statevector_bell, measurements_bell by assumption.
  cbn [option_map]. f_equal.
  replace (Simulator.num_clbits (GateModel.bell q c)) with 2
    by (unfold Simulator.num_clbits; cbn; lia).
  unfold Simulator.Rsum, Cnorm2, C0.
  cbn -[sqrt Rdiv Rplus Rmult].
  pose proof inv_sqrt2_sqr as Hsq.
  repeat (f_equal; try nra).
Qed.

End BellCircuit.

Lemma memory_probability_impossible (probs : list R) (v : nat) (memory : list nat) :
  nth v probs 0%R = 0%R ->
  In v memory ->
  fold_right (fun v acc => (nth v probs 0 * acc)%R) 1%R memory = 0%R.
Proof.
  intros Hv. induction memory as [| w memory IH]; intros Hin; cbn [fold_right].
  - destruct Hin.
  - destruct Hin as [-> | Hin].
    + rewrite Hv. ring.
    + rewrite IH by exact Hin. ring.
Qed.

(** C8.  The Bell circuit of the gate-model notebook (Hadamard on qubit 0,
    CNOT from qubit 0 to qubit 1, both qubits measured into the classical
    register) gives, in each shot, the outcomes [00] and [11] with
    probability [1/2] each and the outcomes [01] and [10] with probability
    zero; so for every number of shots a run in which [01] or [10] appears has
    probability zero, and every run made of [00] and [11] alone has
    probability [(1/2)^shots]. *)
Theorem bell_outcome_probabilities {K : Type} {F : Qiskit.Framework K}
    (s : Qiskit.lib_state) :
  exists (circuit : Qiskit.QuantumCircuit) (s' : Qiskit.lib_state) (probs : list R),
    Qiskit.run (GateModel.bell_circuit (K := K)) s = (Py.Ok circuit, s')
    /\ Simulator.outcome_probabilities circuit = Some probs
    /\ map (fun v => (Simulator.bitstring 2 v, nth v probs 0%R)) (seq 0 4)
       = [("00"%string, (1 / 2)%R); ("01"%string, 0%R);
          ("10"%string, 0%R); ("11"%string, (1 / 2)%R)]
    /\ (forall (shots : nat) (memory : list nat),
          In 1 memory \/ In 2 memory ->
          Simulator.memory_probability probs shots memory = 0%R)
    /\ (forall (shots : nat) (memory : list nat),
          List.length memory = shots ->
          Forall (fun v => v = 0 \/ v = 3) memory ->
          Simulator.memory_probability probs shots memory = ((1 / 2) ^ shots)%R).
Proof.
  exists (GateModel.bell (Qiskit.mkQuantumRegister (Qiskit.qreg_counter s) 2)
                         (Qiskit.mkClassicalRegister (Qiskit.creg_counter s) 2)).
  exists (Qiskit.mkLibState (S (Qiskit.qreg_counter s)) (S (Qiskit.creg_counter s))).
  exists [(1 / 2)%R; 0%R; 0%R; (1 / 2)%R].
  split; [apply run_bell_circuit |].
  split; [apply probabilities_bell; reflexivity |].
  split; [reflexivity |].
  split.
  - intros shots memory Hin. unfold Simulator.memory_probability.
    destruct (Nat.eqb (List.length memory) shots); [| reflexivity].
    destruct Hin as [Hin | Hin];
      [apply (memory_probability_impossible _ 1) | apply (memory_probability_impossible _ 2)];
      auto.
  - intros shots memory Hlen Hall. unfold Simulator.memory_probability.
    rewrite Hlen, Nat.eqb_refl. subst shots.
    induction Hall as [| v memory Hv _ IH]; cbn [fold_right List.length pow].
    + reflexivity.
    + rewrite IH. destruct Hv as [-> | ->]; cbn [nth]; reflexivity.
Qed.


(* ================================================================== *)
(** * Determinism of the helper functions                              *)
(* ================================================================== *)

Section HelpersPure.
Import Py Qiskit VariationalCircuits.
Context {K : Type} {N : Number K}.

Lemma pure_pauli_x (g : globals K) q c : pure (pauli_x g q c).
Proof.
  rewrite pauli_x_position. destruct (Cells.position _ _); exact I.
Qed.

Lemma pure_pauli_z (g : globals K) q c : pure (pauli_z g q c).
Proof.
  rewrite pauli_z_position. destruct (Cells.position _ _); exact I.
Qed.

Lemma pure_product_pauli_z (g : globals K) q1 q2 c : pure (product_pauli_z g q1 q2 c).
Proof.
  rewrite product_pauli_z_position.
  destruct (Cells.position _ q1); [| exact I].
  destruct (Cells.position _ q2); exact I.
Qed.

(** After its register is created, [prepare_init_circuit] only appends
    gates. *)
Lemma pure_prepare_loop (n : nat) (alpha : R) (r : QuantumRegister)
    (c0 : QuantumCircuit) :
  pure (E := libcall K)
    (for_loop (range n)
       (fun i circuit =>
          anc <- qreg_getitem r (Z.of_nat n + i) ;;
          ctl <- qreg_getitem r (Z.of_nat n + i) ;;
          tgt <- qreg_getitem r i ;;
          Ret (cx ctl tgt (rx alpha anc circuit)))
       c0).
Proof.
  apply pure_for_loop. intros i circuit.
  apply pure_bind; [apply pure_getitem | intros anc].
  apply pure_bind; [apply pure_getitem | intros ctl].
  apply pure_bind; [apply pure_getitem | intros tgt].
  exact I.
Qed.

Lemma registers_created_neq (k : nat) (s : lib_state) :
  1 <= k -> registers_created k s <> s.
Proof.
  intros Hk Heq. apply (f_equal qreg_counter) in Heq.
  unfold registers_created in Heq. cbn [qreg_counter] in Heq. lia.
Qed.

End HelpersPure.


Section DeterminismExamples.
#[local] Existing Instance Example.framework.

Lemma example_run_create_circuit :
  Qiskit.run (VariationalCircuits.create_circuit Example.notebook_globals [(PI / 4)%R] [PI])
             Example.state0
  = (Py.Ok (VariationalCircuits.appended_layers Example.notebook_globals
              [((PI / 4)%R, PI)]), Qiskit.mkLibState 2 0).
Proof.
  rewrite run_create_circuit by (cbn; lia).
  cbn [VariationalCircuits.p Example.notebook_globals VariationalCircuits.layers_of
       seq map nth VariationalCircuits.summed_layers fold_left].
  unfold VariationalCircuits.appended_layers, VariationalCircuits.layer_circuit.
  cbn [fold_left fst snd]. rewrite example_circuit_add_assoc. reflexivity.
Qed.



End DeterminismExamples.

(* ================================================================== *)
(** * The Pauli helpers on every index                                 *)
(* ================================================================== *)

Section PauliOnEveryIndex.
Import Py Qiskit VariationalCircuits.
Context {K : Type} {N : Number K}.
Variable g : globals K.

(** X1.  For [0 <= qubit < n_qubits], [pauli_z(qubit, coeff)] returns, for a
    coefficient that is not zero, an operator with exactly one term of weight
    [coeff] whose Pauli has the [z] array [e_qubit] and a zero [x] array
    (sigma-Z on [qubit], the identity on every other qubit), and for a
    coefficient that is zero the operator without any term. *)
Theorem pauli_z_single_term (qubit : Z) (coeff : K) :
  (0 <= qubit < Z.of_nat (n_qubits g))%Z ->
  (is_zero coeff = false ->
   pauli_z g qubit coeff
   = Ret (mkWeightedPauliOperator [(coeff, Cells.Z_on (n_qubits g) (Z.to_nat qubit))]))
  /\ (is_zero coeff = true ->
      pauli_z g qubit coeff = Ret (mkWeightedPauliOperator []))
  /\ (forall i, i < n_qubits g ->
        sigma_at (Cells.Z_on (n_qubits g) (Z.to_nat qubit)) i
        = if Nat.eqb i (Z.to_nat qubit) then SigmaZ else SigmaI).
Proof.
  intros Hq.
  assert (Hrun : pauli_z g qubit coeff
                 = Ret (WeightedPauliOperator_init coeff
                          (Cells.Z_on (n_qubits g) (Z.to_nat qubit)))).
  { rewrite pauli_z_position, position_in_range by exact Hq. reflexivity. }
  repeat apply conj.
  - intros Hc. rewrite Hrun, init_nonzero by exact Hc. reflexivity.
  - intros Hc. rewrite Hrun, init_zero by exact Hc. reflexivity.
  - intros i Hi. apply sigma_at_Z_on. exact Hi.
Qed.

(** X2.  An index outside [[-n_qubits, n_qubits)] makes each Pauli helper
    raise: [pauli_x] and [pauli_z] on that index, [product_pauli_z] with
    that index in the first place whatever the second index is, and with
    that index in the second place when the first index is inside the
    range.  The exception is [IndexError] when the index fits the 64-bit
    index type and [OverflowError] when it does not. *)
Theorem pauli_helpers_index_error (q : Z) (c : K) :
  (q < - Z.of_nat (n_qubits g) \/ Z.of_nat (n_qubits g) <= q)%Z ->
  let e := if Np.fits_index q then IndexError else OverflowError in
  pauli_x g q c = Raise e
  /\ pauli_z g q c = Raise e
  /\ (forall q', product_pauli_z g q q' c = Raise e)
  /\ (forall q', (- Z.of_nat (n_qubits g) <= q' < Z.of_nat (n_qubits g))%Z ->
                 product_pauli_z g q' q c = Raise e)
  /\ ((-9223372036854775808 <= q < 9223372036854775808)%Z -> e = IndexError)
  /\ ((q < -9223372036854775808 \/ 9223372036854775808 <= q)%Z -> e = OverflowError).
Proof.
  intros Hq e.
  pose proof (position_outside (n_qubits g) q Hq) as Hpos.
  repeat apply conj.
  - rewrite pauli_x_position, Hpos. reflexivity.
  - rewrite pauli_z_position, Hpos. reflexivity.
  - intros q'. rewrite product_pauli_z_position, Hpos. reflexivity.
  - intros q' Hq'. rewrite product_pauli_z_position, Hpos.
    destruct (proj2 (position_some_iff (n_qubits g) q') Hq') as [k ->]. reflexivity.
  - apply index_error_fits.
  - apply index_error_too_large.
Qed.

(** X3.  A negative index counts from the last qubit: for
    [-n_qubits <= q < 0] each Pauli helper does on [q] what it does on
    [q + n_qubits], so that [pauli_x(-1, c)] acts on the last qubit. *)
Theorem pauli_helpers_negative_index (q : Z) (c : K) :
  (- Z.of_nat (n_qubits g) <= q < 0)%Z ->
  pauli_x g q c
  = Ret (WeightedPauliOperator_init c
           (Cells.X_on (n_qubits g) (Z.to_nat (q + Z.of_nat (n_qubits g)))))
  /\ pauli_x g q c = pauli_x g (q + Z.of_nat (n_qubits g)) c
  /\ pauli_z g q c = pauli_z g (q + Z.of_nat (n_qubits g)) c
  /\ (forall q', product_pauli_z g q q' c
                 = product_pauli_z g (q + Z.of_nat (n_qubits g)) q' c)
  /\ (forall q', product_pauli_z g q' q c
                 = product_pauli_z g q' (q + Z.of_nat (n_qubits g)) c).
Proof.
  intros Hq.
  pose proof (position_negative (n_qubits g) q Hq) as Hpos.
  assert (Hpos' : Cells.position (n_qubits g) (q + Z.of_nat (n_qubits g))
                  = Some (Z.to_nat (q + Z.of_nat (n_qubits g)))).
  { apply position_in_range. lia. }
  repeat apply conj.
  - rewrite pauli_x_position, Hpos. reflexivity.
  - rewrite !pauli_x_position, Hpos, Hpos'. reflexivity.
  - rewrite !pauli_z_position, Hpos, Hpos'. reflexivity.
  - intros q'. rewrite !product_pauli_z_position, Hpos, Hpos'. reflexivity.
  - intros q'. rewrite !product_pauli_z_position, Hpos, Hpos'. reflexivity.
Qed.

(** X4.  [product_pauli_z] does not depend on the order of its two qubits
    when one of them is inside [[-n_qubits, n_qubits)] or both fit (or both
    do not fit) the index type: the two orders then return the same operator
    or raise the same exception.  When both are outside the range and only
    one of them fits the index type, the two orders raise different
    exceptions: the first index is looked up first. *)
Theorem product_pauli_z_symmetric (q1 q2 : Z) (c : K) :
  ((- Z.of_nat (n_qubits g) <= q1 < Z.of_nat (n_qubits g))%Z
   \/ (- Z.of_nat (n_qubits g) <= q2 < Z.of_nat (n_qubits g))%Z
   \/ Np.fits_index q1 = Np.fits_index q2 ->
   product_pauli_z g q1 q2 c = product_pauli_z g q2 q1 c)
  /\ ((q1 < - Z.of_nat (n_qubits g) \/ Z.of_nat (n_qubits g) <= q1)%Z ->
      (q2 < - Z.of_nat (n_qubits g) \/ Z.of_nat (n_qubits g) <= q2)%Z ->
      Np.fits_index q1 = true -> Np.fits_index q2 = false ->
      product_pauli_z g q1 q2 c = Raise IndexError
      /\ product_pauli_z g q2 q1 c = Raise OverflowError).
Proof.
  split.
  - intros Hcase. rewrite !product_pauli_z_position.
    destruct (Cells.position (n_qubits g) q1) as [k1 |] eqn:H1,
             (Cells.position (n_qubits g) q2) as [k2 |] eqn:H2; try reflexivity.
    + unfold Cells.ZZ_on. rewrite logical_xor_comm. reflexivity.
    + destruct Hcase as [Hin | [Hin | Hfit]].
      * apply position_some_iff in Hin as [k Hk]. congruence.
      * apply position_some_iff in Hin as [k Hk]. congruence.
      * unfold Cells.index_error. rewrite Hfit. reflexivity.
  - intros Hq1 Hq2 Hf1 Hf2. rewrite !product_pauli_z_position.
    rewrite (position_outside _ _ Hq1), (position_outside _ _ Hq2).
    unfold Cells.index_error. rewrite Hf1, Hf2. split; reflexivity.
Qed.

(** X5.  Whatever its indices and its coefficient, [product_pauli_z] never
    builds a sigma-X or sigma-Y factor: when it returns, its operator has at
    most one term, and the Pauli of a term has a zero [x] array and is the
    identity or sigma-Z on every qubit (the cost Hamiltonian is diagonal);
    the weight of the term is the coefficient. *)
Theorem product_pauli_z_diagonal_operator (q1 q2 : Z) (c : K)
    (op : WeightedPauliOperator K) :
  product_pauli_z g q1 q2 c = Ret op ->
  List.length (paulis op) <= 1
  /\ (is_zero c = false -> List.length (paulis op) = 1)
  /\ (forall (w : K) (P : Pauli),
        In (w, P) (paulis op) ->
        w = c
        /\ Pauli_x P = repeat false (n_qubits g)
        /\ List.length (Pauli_z P) = n_qubits g
        /\ (forall i, sigma_at P i = SigmaI \/ sigma_at P i = SigmaZ)).
Proof.
  rewrite product_pauli_z_position.
  destruct (Cells.position (n_qubits g) q1) as [k1 |]; [| discriminate].
  destruct (Cells.position (n_qubits g) q2) as [k2 |]; [| discriminate].
  intros H. inversion H; subst op. clear H.
  unfold WeightedPauliOperator_init.
  destruct (is_zero c); cbn [paulis List.length In].
  - repeat apply conj; [lia | discriminate | intros w P []].
  - repeat apply conj; [lia | reflexivity |].
    intros w P [Heq | []]. inversion Heq; subst w P.
    repeat apply conj.
    + reflexivity.
    + reflexivity.
    + apply ZZ_on_length.
    + intros i. unfold sigma_at, Cells.ZZ_on. cbn [Pauli_x Pauli_z].
      rewrite repeat_false_nth.
      destruct (nth i _ false); [right | left]; reflexivity.
Qed.

End PauliOnEveryIndex.

Lemma pauli_z_single_term_witness :
  VariationalCircuits.pauli_z Example.notebook_globals 1 1%Z
  = Py.Ret (Qiskit.mkWeightedPauliOperator
              [(1%Z, Qiskit.mkPauli [false; true] [false; false])]).
Proof.
  refine (proj1 (pauli_z_single_term Example.notebook_globals 1%Z 1%Z _) eq_refl).
  cbn. lia.
Defined.

(** The index [2] is outside the two qubits and fits the index type; the
    index [2^63] does not fit it. *)
Lemma pauli_helpers_index_error_witness :
  (VariationalCircuits.pauli_x Example.notebook_globals 2 1%Z = Py.Raise Py.IndexError
   /\ VariationalCircuits.pauli_z Example.notebook_globals 2 1%Z = Py.Raise Py.IndexError)
  /\ (VariationalCircuits.pauli_x Example.notebook_globals 9223372036854775808 1%Z
      = Py.Raise Py.OverflowError
      /\ VariationalCircuits.product_pauli_z Example.notebook_globals
           1 9223372036854775808 1%Z
         = Py.Raise Py.OverflowError).
Proof.
  split.
  - assert (H : (2 < - Z.of_nat (VariationalCircuits.n_qubits Example.notebook_globals)
                 \/ Z.of_nat (VariationalCircuits.n_qubits Example.notebook_globals) <= 2)%Z)
      by (cbn; lia).
    pose proof (pauli_helpers_index_error Example.notebook_globals 2%Z 1%Z H) as Hthm.
    split; [exact (proj1 Hthm) | exact (proj1 (proj2 Hthm))].
  - assert (H : (9223372036854775808
                 < - Z.of_nat (VariationalCircuits.n_qubits Example.notebook_globals)
                 \/ Z.of_nat (VariationalCircuits.n_qubits Example.notebook_globals)
                    <= 9223372036854775808)%Z)
      by (cbn; lia).
    pose proof (pauli_helpers_index_error Example.notebook_globals
                  9223372036854775808%Z 1%Z H) as Hthm.
    split; [exact (proj1 Hthm) |].
    apply (proj1 (proj2 (proj2 (proj2 Hthm))) 1%Z). cbn. lia.
Defined.

Lemma pauli_helpers_negative_index_witness :
  VariationalCircuits.pauli_x Example.notebook_globals (-1) 1%Z
  = Py.Ret (Qiskit.mkWeightedPauliOperator
              [(1%Z, Qiskit.mkPauli [false; false] [false; true])]).
Proof.
  refine (proj1 (pauli_helpers_negative_index Example.notebook_globals (-1)%Z 1%Z _)).
  cbn. lia.
Defined.

(** With two qubits: the indices [5] and [1] (one inside the range), and
    the indices [2] and [2^63] (both outside, only the first fits). *)
Lemma product_pauli_z_symmetric_witness :
  VariationalCircuits.product_pauli_z Example.notebook_globals 5 1 1%Z
  = VariationalCircuits.product_pauli_z Example.notebook_globals 1 5 1%Z
  /\ (VariationalCircuits.product_pauli_z Example.notebook_globals
        2 9223372036854775808 1%Z
      = Py.Raise Py.IndexError
      /\ VariationalCircuits.product_pauli_z Example.notebook_globals
           9223372036854775808 2 1%Z
         = Py.Raise Py.OverflowError).
Proof.
  split.
  - apply (proj1 (product_pauli_z_symmetric Example.notebook_globals 5%Z 1%Z 1%Z)).
    right. left. cbn. lia.
  - apply (proj2 (product_pauli_z_symmetric Example.notebook_globals
                    2%Z 9223372036854775808%Z 1%Z));
      first [reflexivity | cbn; lia].
Defined.

(** The notebook's coupling [product_pauli_z(0, 1, -1)]: one term, of
    weight [-1], without any sigma-X. *)
Lemma product_pauli_z_diagonal_operator_witness :
  List.length
    (Qiskit.paulis
       (Qiskit.mkWeightedPauliOperator
          [((-1)%Z, Qiskit.mkPauli [true; true] [false; false])])) = 1
  /\ (forall (w : Z) (P : Qiskit.Pauli),
        In (w, P)
           (Qiskit.paulis
              (Qiskit.mkWeightedPauliOperator
                 [((-1)%Z, Qiskit.mkPauli [true; true] [false; false])])) ->
        w = (-1)%Z
        /\ Qiskit.Pauli_x P = [false; false]
        /\ List.length (Qiskit.Pauli_z P) = 2
        /\ (forall i, Qiskit.sigma_at P i = Qiskit.SigmaI
                      \/ Qiskit.sigma_at P i = Qiskit.SigmaZ)).
Proof.
  pose proof (product_pauli_z_diagonal_operator Example.notebook_globals 0%Z 1%Z (-1)%Z
                (Qiskit.mkWeightedPauliOperator
                   [((-1)%Z, Qiskit.mkPauli [true; true] [false; false])])
                eq_refl) as (_ & Hone & Hterms).
  split; [exact (Hone eq_refl) | exact Hterms].
Defined.

(* ================================================================== *)
(** * The cells that build [Hm] and [Hc]                               *)
(* ================================================================== *)

Section ComprehensionFacts.
Import Py.
Context {E : Type -> Type}.

Lemma comprehension_cases {A B} (f : A -> prog E B) (l : list A) (e : exn) :
  (forall a, In a l -> (exists b, f a = Ret b) \/ f a = Raise e) ->
  (exists bs, comprehension f l = Ret bs) \/ comprehension f l = Raise e.
Proof.
  induction l as [| a l IH]; intros Hf; cbn [comprehension].
  - left. eexists. reflexivity.
  - destruct (Hf a (or_introl eq_refl)) as [[b Hb] | Hb]; rewrite Hb; cbn [bind].
    + destruct IH as [[bs Hbs] | Hbs].
      * intros a' Ha'. apply Hf. right. exact Ha'.
      * left. rewrite Hbs. eexists. reflexivity.
      * right. rewrite Hbs. reflexivity.
    + right. reflexivity.
Qed.

Lemma Forall2_In_l {A B} (R : A -> B -> Prop) (l : list A) (bs : list B) (a : A) :
  Forall2 R l bs -> In a l -> exists b, R a b.
Proof.
  induction 1 as [| x y l bs Hxy _ IH]; intros Hin.
  - destruct Hin.
  - destruct Hin as [-> | Hin]; [exists y; exact Hxy | apply IH; exact Hin].
Qed.

End ComprehensionFacts.

Section HamiltonianCells.
Import Py Qiskit VariationalCircuits.
Variable g : globals Z.

Lemma getitem2_position (a : list (list Z)) (i j : Z) :
  getitem2 a i j
  = match Cells.position (List.length a) i with
    | Some k =>
        match Cells.position (List.length (nth k a [])) j with
        | Some m => Ret (nth m (nth k a []) 0%Z)
        | None => Raise IndexError
        end
    | None => Raise IndexError
    end.
Proof.
  unfold getitem2. rewrite (getitem_position a i []).
  destruct (Cells.position (List.length a) i) as [k |]; cbn [bind]; [| reflexivity].
  apply getitem_position.
Qed.

Lemma init_integer (c : Z) (P : Pauli) :
  WeightedPauliOperator_init c P
  = mkWeightedPauliOperator (if Z.eqb c 0 then [] else [(c, P)]).
Proof. reflexivity. Qed.

Lemma Hc_term_covered (ij : Z * Z) :
  Cells.covers (n_qubits g) (J g) ->
  Cells.entries_negatable (n_qubits g) (J g) ->
  In ij (product2 (range (n_qubits g))) ->
  Hc_term g ij = Ret (Cells.coupling_term (n_qubits g) (J g) ij).
Proof.
  intros Hcov Hneg Hin. destruct ij as [i j].
  apply in_product2 in Hin as [Hi Hj]. apply in_range in Hi, Hj.
  destruct (Hcov (Z.to_nat i) (Z.to_nat j)) as [Hrow Hcol]; [lia | lia |].
  specialize (Hneg (Z.to_nat i) (Z.to_nat j) ltac:(lia) ltac:(lia)).
  unfold Hc_term. cbn [fst snd]. rewrite getitem2_position.
  rewrite position_in_range by lia. rewrite position_in_range by lia.
  cbn [bind]. rewrite product_pauli_z_position.
  rewrite !position_in_range by lia.
  rewrite (negative_exact _ Hneg), init_integer.
  unfold Cells.coupling_term. cbn [fst snd].
  destruct (Z.eqb_spec (nth (Z.to_nat j) (nth (Z.to_nat i) (J g) []) 0%Z) 0) as [H0 | H0].
  - rewrite H0. reflexivity.
  - destruct (Z.eqb_spec (- nth (Z.to_nat j) (nth (Z.to_nat i) (J g) []) 0%Z) 0);
      [lia | reflexivity].
Qed.

Lemma Hc_term_cases (ij : Z * Z) :
  In ij (product2 (range (n_qubits g))) ->
  (exists op, Hc_term g ij = Ret op) \/ Hc_term g ij = Raise IndexError.
Proof.
  intros Hin. destruct ij as [i j].
  apply in_product2 in Hin as [Hi Hj]. apply in_range in Hi, Hj.
  unfold Hc_term. cbn [fst snd]. rewrite getitem2_position.
  destruct (Cells.position (List.length (J g)) i) as [k |];
    [| right; reflexivity].
  destruct (Cells.position (List.length (nth k (J g) [])) j) as [m |];
    [| right; reflexivity].
  cbn [bind]. rewrite product_pauli_z_position.
  rewrite !position_in_range by lia.
  left. eexists. reflexivity.
Qed.

Lemma Hc_term_returns_inside (i j : Z) (op : WeightedPauliOperator Z) :
  (0 <= i)%Z -> (0 <= j)%Z ->
  Hc_term g (i, j) = Ret op ->
  Z.to_nat i < List.length (J g)
  /\ Z.to_nat j < List.length (nth (Z.to_nat i) (J g) []).
Proof.
  intros Hi Hj. unfold Hc_term. cbn [fst snd]. rewrite getitem2_position.
  destruct (Cells.position (List.length (J g)) i) as [k |] eqn:Hk; [| discriminate].
  destruct (Cells.position (List.length (nth k (J g) [])) j) as [m |] eqn:Hm;
    [| discriminate].
  intros _.
  pose proof (position_nonneg _ _ _ Hi Hk) as Hrow.
  assert (Hkk : k = Z.to_nat i).
  { rewrite position_in_range in Hk by lia. inversion Hk. reflexivity. }
  subst k. split; [exact Hrow |].
  eapply position_nonneg; eassumption.
Qed.

(** X6.  The cell that builds [Hm] takes, for each qubit [i = 0 ..
    n_qubits-1] in turn, the term [-1] times sigma-X on qubit [i], and sums
    them from the left with the framework's [+], starting with the term of
    qubit 0; without any qubit there is nothing to sum and the cell raises
    [TypeError]. *)
Theorem Hm_cell_sums_every_qubit {F : Framework Z} :
  Hm_terms g = Ret (map (Cells.field_term (n_qubits g)) (seq 0 (n_qubits g)))
  /\ Hm_cell g
     = match n_qubits g with
       | 0 => Raise TypeError
       | S m =>
           Ret (fold_left operator_add
                  (map (Cells.field_term (n_qubits g)) (seq 1 m))
                  (Cells.field_term (n_qubits g) 0))
       end.
Proof.
  assert (Hterms : Hm_terms g
                   = Ret (map (Cells.field_term (n_qubits g)) (seq 0 (n_qubits g)))).
  { unfold Hm_terms.
    rewrite (comprehension_ret _ (fun i => Cells.field_term (n_qubits g) (Z.to_nat i))).
    - unfold range. rewrite map_map. f_equal.
      apply map_ext. intros i. rewrite Nat2Z.id. reflexivity.
    - intros i Hi. apply in_range in Hi.
      rewrite pauli_x_position, position_in_range by lia. reflexivity. }
  split; [exact Hterms |].
  unfold Hm_cell. rewrite Hterms. cbn [bind].
  destruct (n_qubits g) as [| m]; reflexivity.
Qed.

(** X7.  When [J] has an entry for every pair of qubits (none of them the
    one integer whose negation wraps), the comprehension that builds [Hc]
    returns one element per pair [(i, j)] of [itertools.product],
    [n_qubits] squared in all and in that order: the element of [(i, j)] is
    the one term [-J[i, j]] times the Pauli with sigma-Z on [i] and on [j]
    when [J[i, j]] is not zero, and an operator without any term when
    [J[i, j]] is zero. *)
Theorem Hc_terms_every_pair :
  Cells.covers (n_qubits g) (J g) ->
  Cells.entries_negatable (n_qubits g) (J g) ->
  Hc_terms g
  = Ret (map (Cells.coupling_term (n_qubits g) (J g)) (product2 (range (n_qubits g))))
  /\ List.length (product2 (range (n_qubits g))) = n_qubits g * n_qubits g.
Proof.
  intros Hcov Hneg. split.
  - unfold Hc_terms. apply comprehension_ret.
    intros ij Hin. apply Hc_term_covered; assumption.
  - unfold product2. rewrite flat_map_concat_map.
    assert (Hlen : forall (l l' : list Z),
               List.length (List.concat (map (fun a => map (fun b => (a, b)) l') l))
               = List.length l * List.length l').
    { intros l l'. induction l as [| a l IH]; cbn [map List.concat List.length].
      - reflexivity.
      - rewrite length_app, length_map, IH. reflexivity. }
    rewrite Hlen, range_length. reflexivity.
Qed.

(** X8.  When [J] lacks an entry for some pair of qubits, the comprehension
    that builds [Hc] raises [IndexError], and so does the cell. *)
Theorem Hc_terms_index_error {F : Framework Z} :
  ~ Cells.covers (n_qubits g) (J g) ->
  Hc_terms g = Raise IndexError /\ Hc_cell g = Raise IndexError.
Proof.
  intros Hnot.
  assert (Hraise : Hc_terms g = Raise IndexError).
  { unfold Hc_terms.
    destruct (comprehension_cases (Hc_term g) (product2 (range (n_qubits g))) IndexError)
      as [[terms Hterms] | Hraise].
    - intros ij Hin. apply Hc_term_cases. exact Hin.
    - exfalso. apply Hnot. intros i j Hi Hj.
      apply comprehension_inv in Hterms.
      destruct (Forall2_In_l _ _ _ (Z.of_nat i, Z.of_nat j) Hterms) as [op Hop].
      { apply in_product2. split; apply in_range; lia. }
      apply Hc_term_returns_inside in Hop; [| lia | lia].
      rewrite !Nat2Z.id in Hop. exact Hop.
    - exact Hraise. }
  split; [exact Hraise |].
  unfold Hc_cell. rewrite Hraise. reflexivity.
Qed.

End HamiltonianCells.

(** Without any qubit the cell of [Hm] has nothing to sum. *)
Example Hm_cell_no_qubit :
  VariationalCircuits.Hm_cell (F := Example.framework) Cells.globals_no_qubit
  = Py.Raise Py.TypeError.
Proof. reflexivity. Qed.

Lemma notebook_J_covers : Cells.covers 2 VariationalCircuits.notebook_J.
Proof.
  intros i j Hi Hj.
  destruct i as [| [| i]]; [| | lia]; destruct j as [| [| j]]; try lia; cbn; lia.
Qed.

Lemma notebook_J_negatable : Cells.entries_negatable 2 VariationalCircuits.notebook_J.
Proof.
  intros i j Hi Hj. unfold Cells.negatable.
  destruct i as [| [| i]]; [| | lia]; destruct j as [| [| j]]; try lia; cbn; lia.
Qed.

(** The notebook's [J = [[0, 1], [0, 0]]]: only the pair [(0, 1)] gives a
    term. *)
Lemma Hc_terms_every_pair_witness :
  VariationalCircuits.Hc_terms Example.notebook_globals
  = Py.Ret
      [Qiskit.mkWeightedPauliOperator [];
       Qiskit.mkWeightedPauliOperator
         [((-1)%Z, Qiskit.mkPauli [true; true] [false; false])];
       Qiskit.mkWeightedPauliOperator [];
       Qiskit.mkWeightedPauliOperator []].
Proof.
  apply (Hc_terms_every_pair Example.notebook_globals notebook_J_covers
           notebook_J_negatable).
Defined.

Lemma Hc_terms_index_error_witness :
  VariationalCircuits.Hc_terms Cells.globals_small_J = Py.Raise Py.IndexError
  /\ VariationalCircuits.Hc_cell (F := Example.framework) Cells.globals_small_J
     = Py.Raise Py.IndexError.
Proof.
  apply (Hc_terms_index_error Cells.globals_small_J (F := Example.framework)).
  intros Hcov. destruct (Hcov 1 0) as [Hrow _]; [cbn; lia | cbn; lia |].
  cbn in Hrow. lia.
Defined.

(* ================================================================== *)
(** * [create_circuit] and [evaluate_circuit] on every input           *)
(* ================================================================== *)

(** X9.  When [beta] or [gamma] has fewer than [p] entries,
    [create_circuit(beta, gamma)] raises [IndexError], after the evolutions
    of the layers before the missing entry have been asked of the framework:
    two for each index below both lengths, and one more when it is [gamma]
    that ends first; the register counter has advanced by that number. *)
Theorem create_circuit_short_arrays_raise {K : Type} {F : Qiskit.Framework K}
    (g : VariationalCircuits.globals K) (beta gamma : list R) (s : Qiskit.lib_state) :
  List.length beta < VariationalCircuits.p g
  \/ List.length gamma < VariationalCircuits.p g ->
  Qiskit.run (VariationalCircuits.create_circuit g beta gamma) s
  = (Py.Err Py.IndexError,
     Qiskit.registers_created (Cells.evolutions_before_failure beta gamma) s).
Proof.
  intros Hshort. apply run_create_circuit_short. exact Hshort.
Qed.

(** X10.  [create_circuit] reads the first [p] entries of each array only:
    entries of [beta] and [gamma] from position [p] on change neither its
    outcome nor the framework state it leaves. *)
Theorem create_circuit_ignores_extra_angles {K : Type} {F : Qiskit.Framework K}
    (g : VariationalCircuits.globals K) (beta gamma more_beta more_gamma : list R)
    (s : Qiskit.lib_state) :
  List.length beta = VariationalCircuits.p g ->
  List.length gamma = VariationalCircuits.p g ->
  Qiskit.run (VariationalCircuits.create_circuit g (beta ++ more_beta) (gamma ++ more_gamma)) s
  = Qiskit.run (VariationalCircuits.create_circuit g beta gamma) s.
Proof.
  intros Hb Hc.
  rewrite (create_circuit_firstn g (beta ++ more_beta) (gamma ++ more_gamma)).
  rewrite <- Hb at 1. rewrite firstn_app, Nat.sub_diag, firstn_all, firstn_O, app_nil_r.
  rewrite <- Hc at 1. rewrite firstn_app, Nat.sub_diag, firstn_all, firstn_O, app_nil_r.
  reflexivity.
Qed.

(** X11.  When both arrays have at least [p] entries, [create_circuit] makes
    exactly [2p] framework calls, none but evolutions: for [i = 0 .. p-1] in
    turn, the evolution of [Hc] by [beta[i]] and then the evolution of [Hm]
    by [gamma[i]], each on the register [qr] with one time slice, mode
    ['suzuki'] and order [3]. *)
Theorem create_circuit_call_log {K : Type} {F : Qiskit.Framework K}
    (g : VariationalCircuits.globals K) (beta gamma : list R) (s : Qiskit.lib_state) :
  VariationalCircuits.p g <= List.length beta ->
  VariationalCircuits.p g <= List.length gamma ->
  Qiskit.calls (VariationalCircuits.create_circuit g beta gamma) s
  = flat_map (Cells.layer_calls g)
             (VariationalCircuits.layers_of (VariationalCircuits.p g) beta gamma)
  /\ List.length (Qiskit.calls (VariationalCircuits.create_circuit g beta gamma) s)
     = 2 * VariationalCircuits.p g.
Proof.
  intros Hb Hc. rewrite calls_create_circuit by assumption. split; [reflexivity |].
  rewrite <- (layers_of_length (VariationalCircuits.p g) beta gamma) at 2.
  induction (VariationalCircuits.layers_of (VariationalCircuits.p g) beta gamma)
    as [| bc layers IH]; cbn [flat_map List.length app Cells.layer_calls].
  - reflexivity.
  - rewrite IH. lia.
Qed.

Lemma half_of_double_length {A} (beta gamma : list A) :
  List.length beta = List.length gamma ->
  List.length (beta ++ gamma) / 2 = List.length beta.
Proof.
  intros Hlen. rewrite length_app, <- Hlen.
  replace (List.length beta + List.length beta) with (List.length beta * 2) by lia.
  apply Nat.div_mul. discriminate.
Qed.

(** X12.  Splitting undoes concatenating: for arrays [beta] and [gamma] of
    one length, the cell that concatenates them and splits the result in the
    middle builds [create_circuit(beta, gamma)], and
    [evaluate_circuit(concatenate([beta, gamma]))] raises what
    [create_circuit(beta, gamma)] raises or else returns the real part of the
    framework's expectation of [Hc] on the state of that circuit; when the
    common length is [p], splitting at [p] (as the cell after the optimiser
    does) gives the same circuit again. *)
Theorem evaluate_circuit_of_concatenation {K : Type} {F : Qiskit.Framework K}
    (g : VariationalCircuits.globals K) (beta gamma : list R) (s : Qiskit.lib_state) :
  List.length beta = List.length gamma ->
  Cells.concatenated_circuit g beta gamma = VariationalCircuits.create_circuit g beta gamma
  /\ Qiskit.run (VariationalCircuits.evaluate_circuit g (beta ++ gamma)) s
     = match Qiskit.run (VariationalCircuits.create_circuit g beta gamma) s with
       | (Py.Ok circuit, s') =>
           (Py.Ok (np_real
                     (fst (Qiskit.evaluate_with_statevector
                             (VariationalCircuits.Hc g)
                             (Qiskit.execute_statevector circuit
                                (VariationalCircuits.backend g))))), s')
       | (Py.Err e, s') => (Py.Err e, s')
       end
  /\ (List.length beta = VariationalCircuits.p g ->
      Cells.optimal_circuit g (beta ++ gamma)
      = VariationalCircuits.create_circuit g beta gamma).
Proof.
  intros Hlen.
  assert (Hto : Py.slice_to (beta ++ gamma) (List.length beta) = beta).
  { unfold Py.slice_to. rewrite firstn_app, Nat.sub_diag, firstn_all, firstn_O.
    apply app_nil_r. }
  assert (Hfrom : Py.slice_from (beta ++ gamma) (List.length beta) = gamma).
  { unfold Py.slice_from. rewrite skipn_app, Nat.sub_diag, skipn_all. reflexivity. }
  repeat apply conj.
  - unfold Cells.concatenated_circuit.
    rewrite (half_of_double_length beta gamma Hlen), Hto, Hfrom. reflexivity.
  - unfold VariationalCircuits.evaluate_circuit.
    rewrite (half_of_double_length beta gamma Hlen), Hto, Hfrom.
    rewrite run_bind.
    destruct (Qiskit.run (VariationalCircuits.create_circuit g beta gamma) s)
      as [[circuit | e] s']; reflexivity.
  - intros Hp. unfold Cells.optimal_circuit. rewrite <- Hp, Hto, Hfrom. reflexivity.
Qed.

(** X13.  A parameter vector with fewer than [2p] entries makes
    [evaluate_circuit] raise [IndexError]: its first half, of [len // 2]
    entries, is then shorter than [p] and not longer than the second half,
    so that the exception comes from [beta] after two evolutions for each
    entry of the first half; the register counter has advanced by that
    number. *)
Theorem evaluate_circuit_short_vector_raises {K : Type} {F : Qiskit.Framework K}
    (g : VariationalCircuits.globals K) (beta_gamma : list R) (s : Qiskit.lib_state) :
  List.length beta_gamma < 2 * VariationalCircuits.p g ->
  Qiskit.run (VariationalCircuits.evaluate_circuit g beta_gamma) s
  = (Py.Err Py.IndexError,
     Qiskit.registers_created (2 * (List.length beta_gamma / 2)) s).
Proof.
  intros Hlen. unfold VariationalCircuits.evaluate_circuit.
  assert (Hhalf : List.length beta_gamma / 2 < VariationalCircuits.p g).
  { apply Nat.Div0.div_lt_upper_bound. lia. }
  assert (Hle : 2 * (List.length beta_gamma / 2) <= List.length beta_gamma).
  { apply Nat.Div0.mul_div_le. }
  rewrite run_bind, run_create_circuit_short.
  - unfold Cells.evolutions_before_failure, Py.slice_to, Py.slice_from.
    rewrite length_firstn, length_skipn.
    destruct (Nat.ltb_spec (List.length beta_gamma - List.length beta_gamma / 2)
                (Nat.min (List.length beta_gamma / 2) (List.length beta_gamma)));
      [lia |].
    do 2 f_equal. lia.
  - left. unfold Py.slice_to. rewrite length_firstn. lia.
Qed.

(** X14.  [evaluate_circuit] accepts a vector of odd length [2p + 1] and
    ignores its last entry: the outcome is that of the vector without it. *)
Theorem evaluate_circuit_ignores_odd_entry {K : Type} {F : Qiskit.Framework K}
    (g : VariationalCircuits.globals K) (beta_gamma : list R) (extra : R)
    (s : Qiskit.lib_state) :
  List.length beta_gamma = 2 * VariationalCircuits.p g ->
  Qiskit.run (VariationalCircuits.evaluate_circuit g (beta_gamma ++ [extra])) s
  = Qiskit.run (VariationalCircuits.evaluate_circuit g beta_gamma) s.
Proof.
  intros Hlen. unfold VariationalCircuits.evaluate_circuit.
  assert (Hn : List.length beta_gamma / 2 = VariationalCircuits.p g).
  { rewrite Hlen, Nat.mul_comm. apply Nat.div_mul. discriminate. }
  assert (Hn' : List.length (beta_gamma ++ [extra]) / 2 = VariationalCircuits.p g).
  { rewrite length_app, Hlen. cbn [List.length].
    replace (2 * VariationalCircuits.p g + 1) with (1 + VariationalCircuits.p g * 2) by lia.
    rewrite Nat.div_add by discriminate. reflexivity. }
  rewrite Hn, Hn'.
  rewrite (create_circuit_firstn g (Py.slice_to (beta_gamma ++ [extra]) _)).
  rewrite (create_circuit_firstn g (Py.slice_to beta_gamma _)).
  unfold Py.slice_to, Py.slice_from.
  rewrite !firstn_firstn, Nat.min_id.
  rewrite (firstn_app (VariationalCircuits.p g) beta_gamma [extra]).
  replace (VariationalCircuits.p g - List.length beta_gamma) with 0 by lia.
  rewrite firstn_O, app_nil_r.
  rewrite (skipn_app (VariationalCircuits.p g) beta_gamma [extra]).
  replace (VariationalCircuits.p g - List.length beta_gamma) with 0 by lia.
  cbn [skipn].
  rewrite (firstn_app (VariationalCircuits.p g) (skipn (VariationalCircuits.p g) beta_gamma)).
  rewrite length_skipn.
  replace (VariationalCircuits.p g - (List.length beta_gamma - VariationalCircuits.p g))
    with 0 by lia.
  rewrite firstn_O, app_nil_r. reflexivity.
Qed.

(** X15.  On a vector of length [2p] with [p >= 1], [evaluate_circuit] makes
    [2p + 2] framework calls: the [2p] evolutions of [create_circuit], then
    one execution of the circuit on [backend], then one evaluation of [Hc] on
    the resulting state vector. *)
Theorem evaluate_circuit_call_log {K : Type} {F : Qiskit.Framework K}
    (g : VariationalCircuits.globals K) (beta_gamma : list R) (s : Qiskit.lib_state) :
  1 <= VariationalCircuits.p g ->
  List.length beta_gamma = 2 * VariationalCircuits.p g ->
  exists (circuit : Qiskit.QuantumCircuit) (s' : Qiskit.lib_state),
    Qiskit.run (VariationalCircuits.create_circuit g
                  (Py.slice_to beta_gamma (VariationalCircuits.p g))
                  (Py.slice_from beta_gamma (VariationalCircuits.p g))) s
    = (Py.Ok circuit, s')
    /\ Qiskit.calls (VariationalCircuits.evaluate_circuit g beta_gamma) s
       = flat_map (Cells.layer_calls g)
           (VariationalCircuits.layers_of (VariationalCircuits.p g)
              (Py.slice_to beta_gamma (VariationalCircuits.p g))
              (Py.slice_from beta_gamma (VariationalCircuits.p g)))
         ++ [Qiskit.AnyCall
               (Qiskit.ExecuteStatevector circuit (VariationalCircuits.backend g));
             Qiskit.AnyCall
               (Qiskit.EvaluateWithStatevector (VariationalCircuits.Hc g)
                  (Qiskit.execute_statevector circuit (VariationalCircuits.backend g)))]
    /\ List.length (Qiskit.calls (VariationalCircuits.evaluate_circuit g beta_gamma) s)
       = 2 * VariationalCircuits.p g + 2.
Proof.
  intros Hp Hlen.
  assert (Hn : List.length beta_gamma / 2 = VariationalCircuits.p g).
  { rewrite Hlen, Nat.mul_comm. apply Nat.div_mul. discriminate. }
  set (first_half := Py.slice_to beta_gamma (VariationalCircuits.p g)).
  set (second_half := Py.slice_from beta_gamma (VariationalCircuits.p g)).
  assert (H1 : VariationalCircuits.p g <= List.length first_half).
  { unfold first_half, Py.slice_to. rewrite length_firstn. lia. }
  assert (H2 : VariationalCircuits.p g <= List.length second_half).
  { unfold second_half, Py.slice_from. rewrite length_skipn. lia. }
  pose proof (run_create_circuit g first_half second_half s H1 H2) as Hrun.
  pose proof (calls_create_circuit g first_half second_half s H1 H2) as Hcalls.
  pose proof (layers_of_length (VariationalCircuits.p g) first_half second_half) as Hl.
  destruct (VariationalCircuits.layers_of (VariationalCircuits.p g) first_half second_half)
    as [| first rest] eqn:Hlayers; cbn [List.length] in Hl; [lia |].
  cbn [VariationalCircuits.summed_layers] in Hrun.
  do 2 eexists. split; [exact Hrun |].
  assert (Hlog :
    Qiskit.calls (VariationalCircuits.evaluate_circuit g beta_gamma) s
    = flat_map (Cells.layer_calls g) (first :: rest)
      ++ [Qiskit.AnyCall
            (Qiskit.ExecuteStatevector
               (Qiskit.circuit_add (VariationalCircuits.circuit_init g)
                  (fold_left Qiskit.circuit_add
                     (map (VariationalCircuits.layer_circuit g) rest)
                     (VariationalCircuits.layer_circuit g first)))
               (VariationalCircuits.backend g));
          Qiskit.AnyCall
            (Qiskit.EvaluateWithStatevector (VariationalCircuits.Hc g)
               (Qiskit.execute_statevector
                  (Qiskit.circuit_add (VariationalCircuits.circuit_init g)
                     (fold_left Qiskit.circuit_add
                        (map (VariationalCircuits.layer_circuit g) rest)
                        (VariationalCircuits.layer_circuit g first)))
                  (VariationalCircuits.backend g)))]).
  { unfold VariationalCircuits.evaluate_circuit. rewrite Hn.
    fold first_half. fold second_half.
    rewrite calls_bind, Hcalls, Hrun. reflexivity. }
  split; [exact Hlog |].
  rewrite Hlog, length_app. cbn [List.length].
  assert (Hcount : forall layers,
             List.length (flat_map (Cells.layer_calls g) layers) = 2 * List.length layers).
  { induction layers as [| bc layers IH]; cbn [flat_map List.length app Cells.layer_calls].
    - reflexivity.
    - rewrite IH. lia. }
  rewrite Hcount. cbn [List.length]. lia.
Qed.

Section MoreQaoaExamples.
#[local] Existing Instance Example.framework.

(** The notebook's [p = 1]: without any [beta] the exception comes before
    any evolution; without any [gamma] it comes after one evolution. *)
Lemma create_circuit_short_arrays_raise_witness :
  Qiskit.run (VariationalCircuits.create_circuit Example.notebook_globals [] [PI])
             Example.state0
  = (Py.Err Py.IndexError, Example.state0)
  /\ Qiskit.run (VariationalCircuits.create_circuit Example.notebook_globals [PI] [])
                Example.state0
     = (Py.Err Py.IndexError, Qiskit.mkLibState 1 0).
Proof.
  split.
  - apply (create_circuit_short_arrays_raise Example.notebook_globals [] [PI] Example.state0).
    left. cbn. lia.
  - apply (create_circuit_short_arrays_raise Example.notebook_globals [PI] [] Example.state0).
    right. cbn. lia.
Defined.

Lemma create_circuit_ignores_extra_angles_witness :
  Qiskit.run (VariationalCircuits.create_circuit Example.notebook_globals
                ([(PI / 4)%R] ++ [1%R; 2%R]) ([PI] ++ [3%R])) Example.state0
  = Qiskit.run (VariationalCircuits.create_circuit Example.notebook_globals
                  [(PI / 4)%R] [PI]) Example.state0.
Proof.
  apply (create_circuit_ignores_extra_angles Example.notebook_globals
           [(PI / 4)%R] [PI] [1%R; 2%R] [3%R] Example.state0); reflexivity.
Defined.

Lemma create_circuit_call_log_witness :
  List.length (Qiskit.calls (VariationalCircuits.create_circuit Example.notebook_globals
                               [(PI / 4)%R] [PI]) Example.state0)
  = 2.
Proof.
  apply (create_circuit_call_log Example.notebook_globals [(PI / 4)%R] [PI] Example.state0);
    cbn; lia.
Defined.

Lemma evaluate_circuit_of_concatenation_witness :
  Cells.concatenated_circuit Example.notebook_globals [(PI / 4)%R] [PI]
  = VariationalCircuits.create_circuit Example.notebook_globals [(PI / 4)%R] [PI].
Proof.
  apply (proj1 (evaluate_circuit_of_concatenation Example.notebook_globals
                  [(PI / 4)%R] [PI] Example.state0 eq_refl)).
Defined.

(** With [p = 2], a vector of three entries: two evolutions are made before
    [beta[1]] is found missing. *)
Lemma evaluate_circuit_short_vector_raises_witness :
  Qiskit.run (VariationalCircuits.evaluate_circuit Cells.globals_two_layers
                [(PI / 4)%R; PI; 1%R])
             Example.state0
  = (Py.Err Py.IndexError, Qiskit.mkLibState 2 0).
Proof.
  apply (evaluate_circuit_short_vector_raises Cells.globals_two_layers
           [(PI / 4)%R; PI; 1%R] Example.state0).
  cbn. lia.
Defined.

Lemma evaluate_circuit_ignores_odd_entry_witness :
  Qiskit.run (VariationalCircuits.evaluate_circuit Example.notebook_globals
                ([(PI / 4)%R; PI] ++ [7%R])) Example.state0
  = Qiskit.run (VariationalCircuits.evaluate_circuit Example.notebook_globals
                  [(PI / 4)%R; PI]) Example.state0.
Proof.
  apply (evaluate_circuit_ignores_odd_entry Example.notebook_globals [(PI / 4)%R; PI]
           7%R Example.state0).
  reflexivity.
Defined.

Lemma evaluate_circuit_call_log_witness :
  exists (circuit : Qiskit.QuantumCircuit) (s' : Qiskit.lib_state),
    Qiskit.run (VariationalCircuits.create_circuit Example.notebook_globals
                  [(PI / 4)%R] [PI]) Example.state0
    = (Py.Ok circuit, s')
    /\ Qiskit.calls (VariationalCircuits.evaluate_circuit Example.notebook_globals
                       [(PI / 4)%R; PI]) Example.state0
       = Cells.layer_calls Example.notebook_globals ((PI / 4)%R, PI)
         ++ [Qiskit.AnyCall
               (Qiskit.ExecuteStatevector circuit Qiskit.statevector_simulator);
             Qiskit.AnyCall
               (Qiskit.EvaluateWithStatevector Example.Hc_value
                  (Qiskit.execute_statevector circuit Qiskit.statevector_simulator))]
    /\ List.length (Qiskit.calls (VariationalCircuits.evaluate_circuit
                                    Example.notebook_globals [(PI / 4)%R; PI])
                                 Example.state0)
       = 4.
Proof.
  apply (evaluate_circuit_call_log Example.notebook_globals [(PI / 4)%R; PI]
           Example.state0); cbn; lia.
Defined.

End MoreQaoaExamples.

(* ================================================================== *)
(** * [prepare_init_circuit] for every size and temperature            *)
(* ================================================================== *)

Section PrepareEverySize.
Import Py Qiskit.
Context {K : Type} {F : Framework K}.

Lemma qreg_getitem_nat (r : QuantumRegister) (k : nat) :
  k < qreg_size r ->
  qreg_getitem (E := libcall K) r (Z.of_nat k) = Ret (r, k).
Proof.
  intros Hk. unfold qreg_getitem, qubits_of.
  rewrite (getitem_nat _ k (r, 0)) by (rewrite length_map, length_seq; exact Hk).
  rewrite nth_map_seq by exact Hk. reflexivity.
Qed.

Lemma run_prepare_loop (r : QuantumRegister) (n : nat) (alpha : R) (count : nat) :
  forall (first : nat) (c0 : QuantumCircuit) (s : lib_state),
    qreg_size r = n * 2 ->
    first + count <= n ->
    run (for_loop (map Z.of_nat (seq first count))
           (fun i circuit =>
              anc <- qreg_getitem r (Z.of_nat n + i) ;;
              ctl <- qreg_getitem r (Z.of_nat n + i) ;;
              tgt <- qreg_getitem r i ;;
              Ret (cx ctl tgt (rx alpha anc circuit)))
           c0) s
    = (Ok (mkQuantumCircuit (qregs c0) (cregs c0)
             (data c0 ++ Cells.prepared_gates r n alpha first count)), s).
Proof.
  induction count as [| count IH]; intros first c0 s Hsize Hle;
    cbn [seq map for_loop].
  - unfold Cells.prepared_gates. cbn [seq flat_map run]. rewrite app_nil_r.
    destruct c0; reflexivity.
  - rewrite <- Nat2Z.inj_add.
    rewrite !qreg_getitem_nat by lia. cbn [bind].
    rewrite IH by (try exact Hsize; lia).
    unfold cx, rx, append, Cells.prepared_gates.
    cbn [qregs cregs data seq flat_map app].
    rewrite <- !app_assoc. reflexivity.
Qed.

Lemma calls_prepare_loop (r : QuantumRegister) (n : nat) (alpha : R) (count : nat) :
  forall (first : nat) (c0 : QuantumCircuit) (s : lib_state),
    qreg_size r = n * 2 ->
    first + count <= n ->
    calls (for_loop (map Z.of_nat (seq first count))
             (fun i circuit =>
                anc <- qreg_getitem r (Z.of_nat n + i) ;;
                ctl <- qreg_getitem r (Z.of_nat n + i) ;;
                tgt <- qreg_getitem r i ;;
                Ret (cx ctl tgt (rx alpha anc circuit)))
             c0) s
    = [].
Proof.
  induction count as [| count IH]; intros first c0 s Hsize Hle;
    cbn [seq map for_loop].
  - reflexivity.
  - rewrite <- Nat2Z.inj_add.
    rewrite !qreg_getitem_nat by lia. cbn [bind].
    apply IH; [exact Hsize | lia].
Qed.

End PrepareEverySize.

Lemma prepared_gates_length r n alpha first count :
  List.length (Cells.prepared_gates r n alpha first count) = 2 * count.
Proof.
  unfold Cells.prepared_gates. revert first.
  induction count as [| count IH]; intros first; cbn [seq flat_map List.length app].
  - reflexivity.
  - rewrite IH. lia.
Qed.

Lemma rotation_angle_bounds (beta : R) :
  (0 < 2 * atan (exp (- beta)) < PI)%R.
Proof.
  pose proof (atan_bound (exp (- beta))) as [_ Hup].
  pose proof (atan_increasing 0 (exp (- beta)) (exp_pos (- beta))) as Hlow.
  rewrite atan_0 in Hlow. lra.
Qed.

(** X16.  For every [n_qubits >= 1], every [beta] and every state of the
    framework, [prepare_init_circuit(beta)] returns without raising: it makes
    one framework call, which creates a register of [2 * n_qubits] qubits,
    and returns the circuit over that register alone whose [2 * n_qubits]
    gates are, for [i = 0 .. n_qubits-1] in turn, an RX on qubit
    [n_qubits + i] and a CNOT from qubit [n_qubits + i] to qubit [i]; every
    rotation is by the angle [2 * arctan(exp(-beta))], which lies between 0
    and pi.  With [n_qubits = 0] the framework refuses the register of no
    qubit and [prepare_init_circuit] raises [CircuitError]. *)
Theorem prepare_init_circuit_every_size {K : Type} {F : Qiskit.Framework K}
    (g : ThermalState.globals) (beta : R) (s : Qiskit.lib_state) :
  let n := ThermalState.n_qubits g in
  let r := Qiskit.mkQuantumRegister (Qiskit.qreg_counter s) (n * 2) in
  let alpha := (2 * atan (exp (- beta)))%R in
  (1 <= n ->
   Qiskit.run (ThermalState.prepare_init_circuit (K := K) g beta) s
   = (Py.Ok (Qiskit.mkQuantumCircuit [r] [] (Cells.prepared_gates r n alpha 0 n)),
      Qiskit.registers_created 1 s)
   /\ List.length (Cells.prepared_gates r n alpha 0 n) = 2 * n)
  /\ (n = 0 ->
      fst (Qiskit.run (ThermalState.prepare_init_circuit (K := K) g beta) s)
      = Py.Err Py.CircuitError)
  /\ Qiskit.calls (ThermalState.prepare_init_circuit (K := K) g beta) s
     = [Qiskit.AnyCall (Qiskit.NewQuantumRegister (K := K) (n * 2))]
  /\ (0 <= alpha <= PI)%R.
Proof.
  intros n r alpha.
  assert (Hloop := run_prepare_loop (K := K) r n alpha n 0
                     (Qiskit.QuantumCircuit_init [r] [])
                     (Qiskit.registers_created 1 s)
                     eq_refl (Nat.le_refl _)).
  repeat apply conj.
  - intros Hn. unfold ThermalState.prepare_init_circuit.
    cbn [Py.bind Py.call Qiskit.run Qiskit.handle]. fold n.
    destruct (Nat.eqb_spec (n * 2) 0); [lia |].
    rewrite registers_created_S. split; [exact Hloop | apply prepared_gates_length].
  - intros Hn. unfold ThermalState.prepare_init_circuit.
    cbn [Py.bind Py.call Qiskit.run Qiskit.handle]. fold n.
    rewrite Hn. reflexivity.
  - unfold ThermalState.prepare_init_circuit.
    cbn [Py.bind Py.call Qiskit.calls Qiskit.handle]. fold n. f_equal.
    destruct (Nat.eqb (n * 2) 0); [reflexivity |].
    apply (calls_prepare_loop (K := K) r n alpha n 0); [reflexivity | apply Nat.le_refl].
  - pose proof (rotation_angle_bounds beta). unfold alpha. lra.
  - pose proof (rotation_angle_bounds beta). unfold alpha. lra.
Qed.

Section PrepareExamples.
#[local] Existing Instance Example.framework.

(** Two system qubits give four gates on a register of four qubits; no
    system qubit gives [CircuitError]. *)
Lemma prepare_init_circuit_every_size_witness :
  (Qiskit.run (ThermalState.prepare_init_circuit (K := Z) (ThermalState.mkGlobals 2 0%R) 1%R)
              (Qiskit.mkLibState 2 0)
   = (Py.Ok (Qiskit.mkQuantumCircuit [Qiskit.mkQuantumRegister 2 4] []
               (Cells.prepared_gates (Qiskit.mkQuantumRegister 2 4) 2
                  (2 * atan (exp (- 1)))%R 0 2)),
      Qiskit.mkLibState 3 0)
   /\ List.length (Cells.prepared_gates (Qiskit.mkQuantumRegister 2 4) 2
                     (2 * atan (exp (- 1)))%R 0 2) = 4)
  /\ fst (Qiskit.run (ThermalState.prepare_init_circuit (K := Z)
                        (ThermalState.mkGlobals 0 0%R) 1%R)
                     (Qiskit.mkLibState 2 0))
     = Py.Err Py.CircuitError.
Proof.
  split.
  - apply (proj1 (prepare_init_circuit_every_size (K := Z) (F := Example.framework)
                    (ThermalState.mkGlobals 2 0%R) 1%R (Qiskit.mkLibState 2 0))).
    cbn. lia.
  - apply (proj1 (proj2 (prepare_init_circuit_every_size (K := Z) (F := Example.framework)
                           (ThermalState.mkGlobals 0 0%R) 1%R (Qiskit.mkLibState 2 0)))).
    reflexivity.
Defined.

End PrepareExamples.

Lemma partial_trace_ancilla (c s : R) :
  Simulator.partial_trace
    (Simulator.to_density_matrix [(c, 0%R); C0; C0; (0%R, (- s)%R)]) [1]
  = [[((c * c)%R, 0%R); (0%R, 0%R)]; [(0%R, 0%R); ((s * s)%R, 0%R)]].
Proof.
  unfold Simulator.partial_trace, Simulator.trace_out, Simulator.entry,
    Simulator.insert_bit, Simulator.to_density_matrix, Cadd, Cmul, Cconj, C0.
  cbn -[Rplus Rmult Ropp Rminus].
  repeat (f_equal; try (apply injective_projections; cbn [fst snd]; ring)).
Qed.

Lemma thermal_weights (x : R) :
  (1 / sqrt (1 + x²) * (1 / sqrt (1 + x²)) = 1 / (1 + x * x))%R
  /\ (x / sqrt (1 + x²) * (x / sqrt (1 + x²)) = x * x / (1 + x * x))%R.
Proof.
  assert (Hpos : (0 < 1 + x²)%R) by (pose proof (Rle_0_sqr x); lra).
  assert (Hsq : (sqrt (1 + x²) * sqrt (1 + x²) = 1 + x²)%R) by (apply sqrt_sqrt; lra).
  assert (Hne : (sqrt (1 + x²) <> 0)%R).
  { intros H0. rewrite H0 in Hsq. lra. }
  unfold Rsqr in *. remember (sqrt (1 + x * x)) as q eqn:Hq. clear Hq.
  split; rewrite <- Hsq; field; exact Hne.
Qed.

(** X17.  With one system qubit, for every inverse temperature [beta] the
    state prepared by [prepare_init_circuit(beta)] has the amplitudes
    [[cos(a), 0, 0, -i sin(a)]] with [a = arctan(exp(-beta))], and tracing the
    ancilla (qubit 1) out of its density matrix leaves the diagonal state with
    populations [1/(1 + exp(-2 beta))] and [exp(-2 beta)/(1 + exp(-2 beta))],
    which add up to one. *)
Theorem prepare_init_circuit_thermal_state {K : Type} {F : Qiskit.Framework K}
    (beta : R) (s : Qiskit.lib_state) :
  exists (circuit : Qiskit.QuantumCircuit) (s' : Qiskit.lib_state) (rho : list (list C)),
    Qiskit.run (ThermalState.prepare_init_circuit (K := K) ThermalState.notebook_globals beta) s
    = (Py.Ok circuit, s')
    /\ ThermalState.get_amplitudes circuit
       = Some [(cos (atan (exp (- beta))), 0%R); C0; C0;
               (0%R, (- sin (atan (exp (- beta))))%R)]
    /\ ThermalState.dm circuit = Some rho
    /\ Simulator.partial_trace rho [1]
       = [[((1 / (1 + exp (- 2 * beta)))%R, 0%R); (0%R, 0%R)];
          [(0%R, 0%R); ((exp (- 2 * beta) / (1 + exp (- 2 * beta)))%R, 0%R)]]
    /\ (1 / (1 + exp (- 2 * beta)) + exp (- 2 * beta) / (1 + exp (- 2 * beta)) = 1)%R.
Proof.
  assert (Hstate :
    Simulator.statevector
      (ThermalState.thermal_circuit (Qiskit.mkQuantumRegister (Qiskit.qreg_counter s) 2)
         (2 * atan (exp (- beta))))
    = Some [(cos (atan (exp (- beta))), 0%R); C0; C0;
            (0%R, (- sin (atan (exp (- beta))))%R)]).
  { rewrite statevector_thermal_circuit by reflexivity.
    replace (2 * atan (exp (- beta)) / 2)%R with (atan (exp (- beta))) by field.
    reflexivity. }
  assert (Hexp : (exp (- beta) * exp (- beta) = exp (- 2 * beta))%R).
  { rewrite <- exp_plus. f_equal. ring. }
  exists (ThermalState.thermal_circuit (Qiskit.mkQuantumRegister (Qiskit.qreg_counter s) 2)
            (2 * atan (exp (- beta)))).
  do 2 eexists. repeat apply conj.
  - reflexivity.
  - exact Hstate.
  - unfold ThermalState.dm. rewrite Hstate. reflexivity.
  - rewrite partial_trace_ancilla, cos_atan, sin_atan.
    destruct (thermal_weights (exp (- beta))) as [Hc Hs].
    rewrite Hc, Hs, Hexp. reflexivity.
  - pose proof (exp_pos (- 2 * beta)). field. lra.
Qed.

(* ================================================================== *)
(** * The random Ising model of notebook 08                            *)
(* ================================================================== *)

Section DictFacts.
Import Annealing.
Context {Key V : Type}.
Variable eqb : Key -> Key -> bool.
Hypothesis eqb_eq : forall a b, eqb a b = true <-> a = b.

Lemma keys_dict_set_old (d : list (Key * V)) (k : Key) (v : V) :
  In k (keys d) -> keys (dict_set eqb d k v) = keys d.
Proof.
  induction d as [| [k' v'] d IH]; intros Hin; cbn [dict_set keys map fst] in *.
  - destruct Hin.
  - destruct (eqb k' k) eqn:Hk; cbn [map fst]; [reflexivity |].
    f_equal. apply IH. destruct Hin as [Heq | Hin]; [| exact Hin].
    apply eqb_eq in Heq. congruence.
Qed.

Lemma keys_dict_set_new (d : list (Key * V)) (k : Key) (v : V) :
  ~ In k (keys d) -> keys (dict_set eqb d k v) = keys d ++ [k].
Proof.
  induction d as [| [k' v'] d IH]; intros Hnot; cbn [dict_set keys map fst app] in *.
  - reflexivity.
  - destruct (eqb k' k) eqn:Hk.
    + apply eqb_eq in Hk. exfalso. apply Hnot. left. exact Hk.
    + cbn [map fst]. f_equal. apply IH. intros Hin. apply Hnot. right. exact Hin.
Qed.

Lemma keys_dict_set_incl (d : list (Key * V)) (k : Key) (v : V) (l : list Key) :
  In k l -> incl (keys d) l -> incl (keys (dict_set eqb d k v)) l.
Proof.
  intros Hk Hd.
  assert (Hdec : In k (keys d) \/ ~ In k (keys d)).
  { clear Hd. induction d as [| [k' v'] d IH]; [right; intros [] |].
    cbn [keys map fst In]. destruct (eqb k' k) eqn:Hkk.
    - left. left. apply eqb_eq. exact Hkk.
    - destruct IH as [IH | IH]; [left; right; exact IH |].
      right. intros [Heq | Hin]; [| exact (IH Hin)].
      apply eqb_eq in Heq. congruence. }
  destruct Hdec as [Hin | Hnot].
  - rewrite keys_dict_set_old by exact Hin. exact Hd.
  - rewrite keys_dict_set_new by exact Hnot.
    apply incl_app; [exact Hd |]. intros x [<- | []]. exact Hk.
Qed.

Lemma keys_dict_set_NoDup (d : list (Key * V)) (k : Key) (v : V) :
  NoDup (keys d) -> NoDup (keys (dict_set eqb d k v)).
Proof.
  induction d as [| [k' v'] d IH]; intros Hnd; cbn [dict_set keys map fst] in *.
  - constructor; [intros [] | constructor].
  - destruct (eqb k' k) eqn:Hk; cbn [map fst]; [exact Hnd |].
    inversion Hnd as [| x l Hnot Hnd']; subst. constructor; [| apply IH; exact Hnd'].
    intros Hin.
    assert (Hincl : incl (keys (dict_set eqb d k v)) (k :: keys d)).
    { apply keys_dict_set_incl; [left; reflexivity | apply incl_tl, incl_refl]. }
    destruct (Hincl _ Hin) as [Heq | Hin']; [| exact (Hnot Hin')].
    assert (Htrue : eqb k' k = true) by (apply eqb_eq; congruence).
    congruence.
Qed.

Lemma values_dict_set (P : V -> Prop) (d : list (Key * V)) (k : Key) (v : V) :
  P v -> Forall P (map snd d) -> Forall P (map snd (dict_set eqb d k v)).
Proof.
  intros Hv. induction d as [| [k' v'] d IH]; intros Hd; cbn [dict_set map snd] in *.
  - constructor; [exact Hv | constructor].
  - inversion Hd; subst.
    destruct (eqb k' k); cbn [map snd]; constructor; auto.
Qed.

End DictFacts.

Lemma pair_eqb_eq (a b : Z * Z) : Annealing.pair_eqb a b = true <-> a = b.
Proof.
  destruct a as [a1 a2], b as [b1 b2]. unfold Annealing.pair_eqb. cbn [fst snd].
  rewrite andb_true_iff, !Z.eqb_eq. split.
  - intros [-> ->]. reflexivity.
  - intros H. inversion H. split; reflexivity.
Qed.

Lemma range_NoDup_from (start len : nat) : NoDup (map Z.of_nat (seq start len)).
Proof.
  revert start. induction len as [| len IH]; intros start; cbn [seq map].
  - constructor.
  - constructor; [| apply IH].
    intros Hin. apply in_map_iff in Hin as [k [Heq Hk]]. apply in_seq in Hk. lia.
Qed.

Lemma in_combinations2_seq (start len : nat) (a b : Z) :
  In (a, b) (Annealing.combinations2 (map Z.of_nat (seq start len))) ->
  (Z.of_nat start <= a < b)%Z /\ (b < Z.of_nat (start + len))%Z.
Proof.
  revert start. induction len as [| len IH]; intros start; cbn [seq map Annealing.combinations2].
  - intros [].
  - intros Hin. apply in_app_or in Hin as [Hin | Hin].
    + apply in_map_iff in Hin as [x [Heq Hx]]. inversion Heq; subst.
      apply in_map_iff in Hx as [k [<- Hk]]. apply in_seq in Hk. lia.
    + apply IH in Hin. lia.
Qed.

Lemma combinations2_length {A} (l : list A) :
  2 * List.length (Annealing.combinations2 l) = List.length l * (List.length l - 1).
Proof.
  induction l as [| a l IH]; cbn [Annealing.combinations2 List.length].
  - reflexivity.
  - rewrite length_app, length_map. rewrite Nat.sub_succ, Nat.sub_0_r.
    destruct (List.length l) as [| m] eqn:Hm; [cbn in *; lia |].
    rewrite Nat.sub_succ, Nat.sub_0_r in IH. lia.
Qed.

Section IsingCell.
Import Py Annealing.
Context {S : Type}.
Variable gen : generator S.

Lemma run_with_bind {A B} (m : prog rngcall A) (f : A -> prog rngcall B) s :
  run_with gen (bind m f) s
  = match run_with gen m s with
    | (Ok a, s') => run_with gen (f a) s'
    | (Err e, s') => (Err e, s')
    end.
Proof.
  revert s. induction m as [a | e | X c k IH]; intros s; cbn [bind run_with].
  - reflexivity.
  - reflexivity.
  - destruct (gen X c s) as [x s']. apply IH.
Qed.

(** A loop whose body keeps an invariant returns, and its result satisfies
    the invariant. *)
Lemma for_loop_invariant {A St} (I : St -> Prop) (l : list A)
    (body : A -> St -> prog rngcall St) :
  (forall a st s, In a l -> I st ->
     exists st' s', run_with gen (body a st) s = (Ok st', s') /\ I st') ->
  forall st0 s, I st0 ->
    exists st' s', run_with gen (for_loop l body st0) s = (Ok st', s') /\ I st'.
Proof.
  induction l as [| a l IH]; intros Hbody st0 s H0; cbn [for_loop].
  - exists st0, s. split; [reflexivity | exact H0].
  - destruct (Hbody a st0 s (or_introl eq_refl) H0) as [st1 [s1 [Hrun H1]]].
    rewrite run_with_bind, Hrun.
    apply IH; [| exact H1].
    intros a' st s' Hin. apply Hbody. right. exact Hin.
Qed.

(** The dict [h]: one key per spin, in order; an invariant that every
    assignment keeps holds of the result. *)
Lemma run_fields_from (Ih : list (Z * R) -> Prop) (l : list Z) :
  (forall h v x s0,
      Ih h -> x = fst (gen R (RandomChoice strengths) s0) ->
      Ih (dict_set Z.eqb h v x)) ->
  forall (h0 : list (Z * R)) s,
    NoDup (keys h0 ++ l) ->
    Ih h0 ->
    exists h s',
      run_with gen
        (for_loop l
           (fun v h => x <- call (RandomChoice strengths) ;; Ret (dict_set Z.eqb h v x))
           h0) s
      = (Ok h, s')
      /\ keys h = keys h0 ++ l
      /\ Ih h.
Proof.
  intros Hset.
  induction l as [| v l IH]; intros h0 s Hnd H0; cbn [for_loop].
  - exists h0, s. rewrite app_nil_r. repeat split. exact H0.
  - cbn [call bind run_with].
    destruct (gen R (RandomChoice strengths) s) as [x s1] eqn:Hx.
    assert (Hfresh : ~ In v (keys h0)).
    { apply NoDup_remove_2 in Hnd. intros Hin. apply Hnd. apply in_or_app. left. exact Hin. }
    pose proof (keys_dict_set_new Z.eqb Z.eqb_eq h0 v x Hfresh) as Hkeys.
    destruct (IH (dict_set Z.eqb h0 v x) s1) as [h [s' [Hrun [Hk Hinv]]]].
    { rewrite Hkeys, <- app_assoc. exact Hnd. }
    { apply (Hset h0 v x s H0). rewrite Hx. reflexivity. }
    exists h, s'. split; [exact Hrun |]. split; [| exact Hinv].
    rewrite Hk, Hkeys, <- app_assoc. reflexivity.
Qed.

Lemma run_fields (Ih : list (Z * R) -> Prop) (n : nat) s :
  (forall h v x s0,
      Ih h -> x = fst (gen R (RandomChoice strengths) s0) ->
      Ih (dict_set Z.eqb h v x)) ->
  Ih [] ->
  exists h s', run_with gen (fields n) s = (Ok h, s') /\ keys h = range n /\ Ih h.
Proof.
  intros Hset H0. unfold fields.
  apply (run_fields_from Ih (range n) Hset [] s); [| exact H0].
  cbn [keys map app]. apply range_NoDup_from.
Qed.

Lemma run_couplings (h : list (Z * R)) (I : list ((Z * Z) * R) -> Prop) s :
  I [] ->
  (forall J uv x s0,
      In uv (combinations2 (keys h)) -> I J ->
      x = fst (gen R (RandomChoice strengths) s0) ->
      I (dict_set pair_eqb J uv x)) ->
  exists J s', run_with gen (couplings h) s = (Ok J, s') /\ I J.
Proof.
  intros H0 Hset. unfold couplings.
  apply for_loop_invariant; [| exact H0].
  intros uv J s0 Hin HJ. cbn [call bind run_with].
  destruct (gen R RandomRandom s0) as [r s1].
  destruct (Rlt_dec r (25 / 100)).
  - cbn [bind run_with].
    destruct (gen R (RandomChoice strengths) s1) as [x s2] eqn:Hx.
    exists (dict_set pair_eqb J uv x), s2. split; [reflexivity |].
    apply (Hset J uv x s1 Hin HJ). rewrite Hx. reflexivity.
  - exists J, s1. split; [reflexivity | exact HJ].
Qed.

(** The whole cell: it returns, [h] has one key per spin, and invariants
    of the two loops hold of [h] and [J]. *)
Lemma run_ising_cell (n : nat) s
    (Ih : list (Z * R) -> Prop) (IJ : list ((Z * Z) * R) -> Prop) :
  (forall h v x s0,
      Ih h -> x = fst (gen R (RandomChoice strengths) s0) ->
      Ih (dict_set Z.eqb h v x)) ->
  Ih [] ->
  (forall J uv x s0,
      In uv (combinations2 (range n)) -> IJ J ->
      x = fst (gen R (RandomChoice strengths) s0) ->
      IJ (dict_set pair_eqb J uv x)) ->
  IJ [] ->
  exists h J s',
    run_with gen (ising_cell n) s = (Ok (h, J), s')
    /\ keys h = range n /\ Ih h /\ IJ J.
Proof.
  intros Hh Hh0 HJ HJ0. unfold ising_cell. cbn [call bind run_with].
  destruct (gen unit (RandomSeed 12) s) as [u s0].
  destruct (run_fields Ih n s0 Hh Hh0) as [h [s1 [Hrun [Hkeys Hinv]]]].
  rewrite run_with_bind, Hrun.
  destruct (run_couplings h IJ s1 HJ0) as [J [s2 [HrunJ HinvJ]]].
  { rewrite Hkeys. exact HJ. }
  rewrite run_with_bind, HrunJ.
  exists h, J, s2. repeat split; assumption.
Qed.

End IsingCell.

Lemma in_strengths_bounded (x : R) :
  In x Annealing.strengths -> (- (1 / 2) <= x <= 1 / 2)%R.
Proof.
  unfold Annealing.strengths, Annealing.arange. intros Hin.
  apply in_map_iff in Hin as [k [<- Hk]].
  apply in_map_iff in Hk as [i [<- Hi]]. apply in_seq in Hi.
  assert (Hrange : (-5 <= -5 + Z.of_nat i <= 5)%Z).
  { change (Z.to_nat (6 - -5)) with 11 in Hi. lia. }
  destruct Hrange as [Hlo Hhi].
  apply IZR_le in Hlo, Hhi. lra.
Qed.

(** X18.  Whatever the random generator answers, the cell that draws the
    Ising model returns without raising; [h] holds one field per spin, with
    the keys [0 .. n_spins-1] in order; the keys of [J] are distinct pairs
    [(u, v)] with [0 <= u < v < n_spins], so there are at most
    [n_spins (n_spins - 1) / 2] couplings and no spin is coupled to
    itself. *)
Theorem ising_cell_structure {S : Type} (gen : Annealing.generator S) (n_spins : nat) (s : S) :
  exists h J s',
    Annealing.run_with gen (Annealing.ising_cell n_spins) s = (Py.Ok (h, J), s')
    /\ Annealing.keys h = Py.range n_spins
    /\ NoDup (Annealing.keys J)
    /\ (forall u v, In (u, v) (Annealing.keys J) ->
          (0 <= u < v)%Z /\ (v < Z.of_nat n_spins)%Z)
    /\ 2 * List.length J <= n_spins * (n_spins - 1).
Proof.
  destruct (run_ising_cell gen n_spins s (fun _ => True)
              (fun J => NoDup (Annealing.keys J)
                        /\ incl (Annealing.keys J)
                                (Annealing.combinations2 (Py.range n_spins))))
    as [h [J [s' [Hrun [Hkeys [_ [Hnd Hincl]]]]]]].
  - intros; exact I.
  - exact I.
  - intros J uv x s0 Hin [Hnd Hincl] _. split.
    + apply keys_dict_set_NoDup; [exact pair_eqb_eq | exact Hnd].
    + apply keys_dict_set_incl; [exact pair_eqb_eq | exact Hin | exact Hincl].
  - split; [constructor | intros x []].
  - exists h, J, s'. repeat apply conj; try assumption.
    + intros u v Hin. apply Hincl in Hin. unfold Py.range in Hin.
      apply in_combinations2_seq in Hin. cbn [Z.of_nat Nat.add] in Hin. lia.
    + pose proof (NoDup_incl_length Hnd Hincl) as Hle.
      pose proof (combinations2_length (Py.range n_spins)) as Hcomb.
      rewrite range_length in Hcomb.
      unfold Annealing.keys in Hle. rewrite length_map in Hle. lia.
Qed.

(** X19.  Whatever the random generator answers, the model built from [h]
    and [J] has exactly [n_spins] variables: the end points of every coupling
    are spins that [h] already lists, so the count that the grading cell
    asserts is met. *)
Theorem ising_model_variable_count {S : Type} (gen : Annealing.generator S)
    (n_spins : nat) (s : S) :
  exists h J s',
    Annealing.run_with gen (Annealing.ising_cell n_spins) s = (Py.Ok (h, J), s')
    /\ List.length (Annealing.variables h J) = n_spins
    /\ (forall v, In v (Annealing.variables h J) <-> (0 <= v < Z.of_nat n_spins)%Z).
Proof.
  destruct (run_ising_cell gen n_spins s (fun _ => True)
              (fun J => incl (Annealing.keys J)
                             (Annealing.combinations2 (Py.range n_spins))))
    as [h [J [s' [Hrun [Hkeys [_ Hincl]]]]]].
  - intros; exact I.
  - exact I.
  - intros J uv x s0 Hin Hincl _.
    apply keys_dict_set_incl; [exact pair_eqb_eq | exact Hin | exact Hincl].
  - intros x [].
  - exists h, J, s'. split; [exact Hrun |].
    assert (Hends : forall v,
               In v (flat_map (fun uv : Z * Z => [fst uv; snd uv]) (Annealing.keys J)) ->
               In v (Py.range n_spins)).
    { intros v Hin. apply in_flat_map in Hin as [[a b] [Hab Hv]].
      apply Hincl in Hab. unfold Py.range in Hab. apply in_combinations2_seq in Hab.
      apply in_range. cbn [fst snd In Z.of_nat Nat.add] in *.
      destruct Hv as [<- | [<- | []]]; lia. }
    assert (Hin : forall v, In v (Annealing.variables h J) <-> In v (Py.range n_spins)).
    { intros v. unfold Annealing.variables. rewrite nodup_In, in_app_iff, Hkeys.
      split; [intros [Hv | Hv]; [exact Hv | apply Hends; exact Hv] | intros Hv; left; exact Hv]. }
    split.
    + apply Nat.le_antisymm.
      * rewrite <- (range_length n_spins) at 1.
        apply NoDup_incl_length; [apply NoDup_nodup |].
        intros v Hv. apply Hin. exact Hv.
      * rewrite <- (range_length n_spins) at 1.
        apply NoDup_incl_length; [apply (range_NoDup_from 0) |].
        intros v Hv. apply Hin. exact Hv.
    + intros v. rewrite Hin. apply in_range.
Qed.

(** X20.  When the generator's [choice] answers with an entry of the array
    it is given, every field of [h] and every coupling of [J] is one of the
    eleven strengths [0.1 * k], [k = -5 .. 5], hence lies between [-1/2] and
    [1/2]. *)
Theorem ising_cell_strengths {S : Type} (gen : Annealing.generator S)
    (n_spins : nat) (s : S) :
  (forall (a : list R) (s0 : S),
      a <> [] -> In (fst (gen R (Annealing.RandomChoice a) s0)) a) ->
  exists h J s',
    Annealing.run_with gen (Annealing.ising_cell n_spins) s = (Py.Ok (h, J), s')
    /\ Forall (fun x => In x Annealing.strengths /\ (- (1 / 2) <= x <= 1 / 2)%R) (map snd h)
    /\ Forall (fun x => In x Annealing.strengths /\ (- (1 / 2) <= x <= 1 / 2)%R) (map snd J).
Proof.
  intros Hchoice.
  assert (Hpick : forall s0 x,
             x = fst (gen R (Annealing.RandomChoice Annealing.strengths) s0) ->
             In x Annealing.strengths /\ (- (1 / 2) <= x <= 1 / 2)%R).
  { intros s0 x ->.
    assert (Hin : In (fst (gen R (Annealing.RandomChoice Annealing.strengths) s0))
                     Annealing.strengths).
    { apply Hchoice. discriminate. }
    split; [exact Hin | apply in_strengths_bounded; exact Hin]. }
  destruct (run_ising_cell gen n_spins s
              (fun h => Forall (fun x => In x Annealing.strengths
                                         /\ (- (1 / 2) <= x <= 1 / 2)%R) (map snd h))
              (fun J => Forall (fun x => In x Annealing.strengths
                                         /\ (- (1 / 2) <= x <= 1 / 2)%R) (map snd J)))
    as [h [J [s' [Hrun [_ [Hh HJ]]]]]].
  - intros h v x s0 Hh Hx. apply values_dict_set; [apply (Hpick s0 x Hx) | exact Hh].
  - constructor.
  - intros J uv x s0 _ HJ Hx. apply values_dict_set; [apply (Hpick s0 x Hx) | exact HJ].
  - constructor.
  - exists h, J, s'. repeat split; assumption.
Qed.

Lemma first_choice_picks_entry (a : list R) (s0 : list R) :
  a <> [] -> In (fst (Annealing.first_choice R (Annealing.RandomChoice a) s0)) a.
Proof.
  intros Ha. destruct a as [| x a]; [congruence |]. left. reflexivity.
Qed.

(** Two spins, the one pair drawn below the threshold. *)
Lemma ising_cell_strengths_witness :
  exists h J s',
    Annealing.run_with Annealing.first_choice (Annealing.ising_cell 2) [(1 / 10)%R]
    = (Py.Ok (h, J), s')
    /\ Forall (fun x => In x Annealing.strengths /\ (- (1 / 2) <= x <= 1 / 2)%R) (map snd h)
    /\ Forall (fun x => In x Annealing.strengths /\ (- (1 / 2) <= x <= 1 / 2)%R) (map snd J).
Proof.
  apply (ising_cell_strengths Annealing.first_choice 2 [(1 / 10)%R]
           first_choice_picks_entry).
Defined.
